(** * keyfi / dimred: the field-to-table-to-embedding pipeline

    A shallow embedding of [src/keyfi/dimred.py] (table import, cleaning,
    scaling, embedding dispatch, export) and of the colorizer
    [_set_cluster_member_colors] of [src/dimred/dimred_interactive.py].

    Conventions.
    - Numeric cells are rationals ([Q]); the functions of the repository
      only move, compare and count cells, they never do arithmetic on them.
    - A Python exception is a value [Raise e] of the [result] type.
    - pandas, numpy, pyvista, scikit-learn, umap and seaborn are outside the
      repository.  What the code needs of their data structures (frames,
      arrays, meshes) is written out below; their numerical algorithms are
      interfaces (type classes) that the theorems quantify over.
    - Calls to [print] are omitted. *)

From Stdlib Require Import String DecimalString ZArith QArith Qminmax Bool Lia List FinFun
  Sorted.
Import ListNotations.
Open Scope string_scope.
Open Scope list_scope.
Open Scope Z_scope.

Set Implicit Arguments.

(* ------------------------------------------------------------------ *)
(** * Exceptions and fallible results *)

Inductive exn : Type :=
| ValueError      (* raised by the repository's own argument checks *)
| KeyError        (* a label that is not on the axis (pandas) *)
| IndexError      (* list index out of range *)
| UnboundLocalError  (* a local variable read before assignment *)
| UpstreamError (tag : string).  (* raised by an external algorithm *)

Inductive result (A : Type) : Type :=
| Ok (a : A)
| Raise (e : exn).

Arguments Ok {A} a.
Arguments Raise {A} e.

Definition bind {A B : Type} (m : result A) (f : A -> result B) : result B :=
  match m with
  | Ok a => f a
  | Raise e => Raise e
  end.

Declare Scope result_scope.
Delimit Scope result_scope with result.
Notation "x <- m ;; k" := (bind m (fun x => k))
  (at level 61, m at next level, right associativity) : result_scope.
Open Scope result_scope.

(** [mapM f l] is the list comprehension [[f(x) for x in l]]: the first
    exception aborts the whole comprehension. *)
Fixpoint mapM {A B : Type} (f : A -> result B) (l : list A) : result (list B) :=
  match l with
  | [] => Ok []
  | x :: xs => y <- f x ;; ys <- mapM f xs ;; Ok (y :: ys)
  end.

(* ------------------------------------------------------------------ *)
(** * Frames (pandas.DataFrame)

    A frame has a row index (the row labels) and an ordered list of named
    columns.  In a well-formed frame every column is as long as the index. *)

Record DataFrame : Type := mkDF {
  index : list Z;
  cols : list (string * list Q)
}.

(** [data.columns] *)
Definition columns (d : DataFrame) : list string := map fst (cols d).

(** [name in data.columns] *)
Definition in_columns (name : string) (d : DataFrame) : bool :=
  existsb (String.eqb name) (columns d).

Definition wf_frame (d : DataFrame) : Prop :=
  Forall (fun c => length (snd c) = length (index d)) (cols d).

(** [data[name]] / [data.name]: the values of the (first) column [name]. *)
Fixpoint lookup_col (name : string) (cs : list (string * list Q)) : option (list Q) :=
  match cs with
  | [] => None
  | (n, v) :: rest => if String.eqb name n then Some v else lookup_col name rest
  end.

Definition column (name : string) (d : DataFrame) : list Q :=
  match lookup_col name (cols d) with
  | Some v => v
  | None => []
  end.

(** Rows picked by a boolean mask. *)
Fixpoint select {A : Type} (mask : list bool) (l : list A) : list A :=
  match mask, l with
  | b :: mask', x :: l' => if b then x :: select mask' l' else select mask' l'
  | _, _ => []
  end.

(** [data[data.vtkGhostType == 2].index]: the labels of the flagged rows. *)
Definition ghost_labels (d : DataFrame) : list Z :=
  select (map (fun v => Qeq_bool v 2) (column "vtkGhostType" d)) (index d).

(** [data.drop(labels, inplace=True)] on the row axis: every row whose label
    is listed goes. *)
Definition drop_rows (labels : list Z) (d : DataFrame) : DataFrame :=
  let mask := map (fun i => negb (existsb (Z.eqb i) labels)) (index d) in
  mkDF (select mask (index d))
       (map (fun c => (fst c, select mask (snd c))) (cols d)).

(** An entry of the Python list [cols_to_drop]: a column name, or a list of
    names appended as one element. *)
Inductive label : Type :=
| Name (s : string)
| Nested (l : list string).

Definition label_is (name : string) (l : label) : bool :=
  match l with
  | Name s => String.eqb s name
  | Nested _ => false
  end.

(** A label is on the column axis when it is the name of a column; a nested
    list is never a column label. *)
Definition label_found (d : DataFrame) (l : label) : bool :=
  match l with
  | Name s => in_columns s d
  | Nested _ => false
  end.

(** [data.drop(columns=labels, axis=1)]: a new frame without the listed
    columns; pandas raises when a label is not on the axis. *)
Definition drop_columns (labels : list label) (d : DataFrame) : result DataFrame :=
  if forallb (label_found d) labels
  then Ok (mkDF (index d)
                (filter (fun c => negb (existsb (label_is (fst c)) labels)) (cols d)))
  else Raise KeyError.

(** [data[[names]]]: a new frame with the named columns in the order given;
    pandas raises when a name is not a column. *)
Definition getitem_list (names : list string) (d : DataFrame) : result DataFrame :=
  cs <- mapM (fun n =>
                match filter (fun c => String.eqb n (fst c)) (cols d) with
                | [] => Raise KeyError
                | found => Ok found
                end) names ;;
  Ok (mkDF (index d) (concat cs)).

(** [frame.reset_index(drop=True, inplace=True)] *)
Definition reset_index (d : DataFrame) : DataFrame :=
  mkDF (map Z.of_nat (seq 0 (length (index d)))) (cols d).

(* ------------------------------------------------------------------ *)
(** * clean_data

    [data] is a mutable object shared with the caller, so the function
    returns the caller's frame as it is after the call together with the
    outcome (the returned frame or the exception). *)

Definition clean_data (data : DataFrame) (dim : Z)
    (vars_to_drop vars_to_keep : option (list string))
  : DataFrame * result DataFrame :=
  if negb (existsb (Z.eqb dim) [2; 3]) then (data, Raise ValueError) else
  let cols_to_drop : list label := [] in
  let cols_to_drop :=
    if in_columns "Points:0" data
    then cols_to_drop ++ [Nested ["Points:0"; "Points:1"; "Points:2"]]
    else cols_to_drop in
  let '(data, cols_to_drop) :=
    if in_columns "vtkGhostType" data
    then (drop_rows (ghost_labels data) data, cols_to_drop ++ [Name "vtkGhostType"])
    else (data, cols_to_drop) in
  match vars_to_keep with
  | Some keep => (data, getitem_list keep data)
  | None =>
      let cols_to_drop :=
        if in_columns "U:0" data && (dim =? 2)
        then cols_to_drop ++ [Name "U:2"]
        else cols_to_drop in
      let cols_to_drop :=
        match vars_to_drop with
        | Some vars => cols_to_drop ++ map Name vars
        | None => cols_to_drop
        end in
      (data,
       cleaned_data <- drop_columns cols_to_drop data ;;
       Ok (reset_index cleaned_data))
  end.

(* ------------------------------------------------------------------ *)
(** * Meshes (pyvista) and numpy arrays

    A mesh array is one- or two-dimensional; a two-dimensional array
    carries its width, so that an array of shape (0, 3) is told from one of
    shape (0,). *)

Inductive array : Type :=
| Arr1 (v : list Q)
| Arr2 (width : nat) (rows : list (list Q)).

(** [np.size(a)] *)
Definition size (a : array) : nat :=
  match a with
  | Arr1 v => length v
  | Arr2 width rows => (length rows * width)%nat
  end.

(** [a.shape[0]] *)
Definition shape0 (a : array) : nat :=
  match a with
  | Arr1 v => length v
  | Arr2 _ rows => length rows
  end.

Record Mesh : Type := mkMesh {
  n_points : nat;
  n_cells : nat;
  arrays : list (string * array)
}.

(** [mesh.array_names] *)
Definition array_names (mesh : Mesh) : list string := map fst (arrays mesh).

Fixpoint lookup_array (name : string) (l : list (string * array)) : option array :=
  match l with
  | [] => None
  | (n, a) :: rest => if String.eqb name n then Some a else lookup_array name rest
  end.

(** [mesh.get_array(name)] *)
Definition get_array (name : string) (mesh : Mesh) : result array :=
  match lookup_array name (arrays mesh) with
  | Some a => Ok a
  | None => Raise KeyError
  end.

(** The mesh filter [mesh.threshold(value=[0, 0.99], scalars="vtkGhostType",
    ...)] of pyvista works on the cells and points of the mesh, which are
    not modelled: it is an interface. *)
Class MeshFilters : Type := {
  threshold : Mesh -> Mesh
}.

(** [pd.DataFrame(np.transpose([a1, ..., ak]), columns=names)]: succeeds on
    a non-empty list of one-dimensional arrays of one length, which become
    the columns; numpy or pandas raise on every other shape. *)
Definition frame_of_arrays (var_arrays : list array) (names : list string)
  : result DataFrame :=
  match var_arrays with
  | Arr1 v0 :: _ =>
      vs <- mapM (fun a =>
                    match a with
                    | Arr1 v =>
                        if (length v =? length v0)%nat then Ok v
                        else Raise ValueError
                    | Arr2 _ _ => Raise ValueError
                    end) var_arrays ;;
      Ok (mkDF (map Z.of_nat (seq 0 (length v0))) (combine names vs))
  | _ => Raise ValueError
  end.

(** [df[name] = values]: an existing column is overwritten where it stands,
    a new one goes last. *)
Fixpoint set_col (name : string) (v : list Q) (cs : list (string * list Q))
  : list (string * list Q) :=
  match cs with
  | [] => [(name, v)]
  | (n, w) :: rest =>
      if String.eqb name n then (n, v) :: rest else (n, w) :: set_col name v rest
  end.

(** [str(i)] *)
Definition str (i : nat) : string := NilEmpty.string_of_uint (Nat.to_uint i).

(** [df[[names]] = a] for a two-dimensional [a]: the k-th name receives the
    k-th component of every row; the number of rows must be that of the
    frame. *)
Definition setitem_list (names : list string) (rows : list (list Q)) (df : DataFrame)
  : result DataFrame :=
  if (length rows =? length (index df))%nat
  then Ok (mkDF (index df)
                (fold_left
                   (fun cs '(k, name) => set_col name (map (fun row => nth k row 0%Q) rows) cs)
                   (combine (seq 0 (length names)) names)
                   (cols df)))
  else Raise ValueError.

(** The loop body of [import_vtk_data] that adds one vector back. *)
Definition add_vector (mesh : Mesh) (df : DataFrame) (vector_name : string)
  : result DataFrame :=
  a <- get_array vector_name mesh ;;
  match a with
  | Arr1 _ => Ok df
  | Arr2 dim rows =>
      setitem_list (map (fun i => vector_name ++ ":" ++ str i)%string (seq 0 dim)) rows df
  end.

(** [for x in l: df = body(df, x)] with exceptions. *)
Fixpoint foldM {A B : Type} (body : B -> A -> result B) (l : list A) (b : B) : result B :=
  match l with
  | [] => Ok b
  | x :: xs => b' <- body b x ;; foldM body xs b'
  end.

(** [import_vtk_data], from the mesh that [pv.read(path)] returned. *)
Definition import_vtk_data {F : MeshFilters} (mesh : Mesh) : result (DataFrame * Mesh) :=
  let mesh :=
    if existsb (String.eqb "vtkGhostType") (array_names mesh)
    then threshold mesh
    else mesh in
  let vector_names :=
    filter (fun var_name =>
              match get_array var_name mesh with
              | Ok a => negb (size a =? n_points mesh)%nat
              | Raise _ => false
              end) (array_names mesh) in
  let var_names :=
    filter (fun name => negb (existsb (String.eqb name) vector_names))
           (array_names mesh) in
  var_arrays <- mapM (fun var_name => get_array var_name mesh) var_names ;;
  df <- frame_of_arrays var_arrays var_names ;;
  df <- foldM (add_vector mesh) vector_names df ;;
  Ok (df, mesh).

(** [mesh[name] = a]: pyvista attaches the array to the points or to the
    cells, by its length, and raises when it fits neither; an array of that
    name with the same attachment is replaced.  A mesh is modelled with one
    collection of arrays, as [mesh.array_names] and [mesh.get_array] show
    it; a mesh that holds a point array and a cell array of one name is not
    represented, so the properties below that set an array twice are stated
    for arrays of one length, which pyvista attaches to the same place. *)
Fixpoint set_array (name : string) (a : array) (l : list (string * array))
  : list (string * array) :=
  match l with
  | [] => [(name, a)]
  | (n, b) :: rest =>
      if String.eqb name n then (n, a) :: rest else (n, b) :: set_array name a rest
  end.

Definition setitem_mesh (name : string) (a : array) (mesh : Mesh) : result Mesh :=
  if (shape0 a =? n_points mesh)%nat || (shape0 a =? n_cells mesh)%nat
  then Ok (mkMesh (n_points mesh) (n_cells mesh) (set_array name a (arrays mesh)))
  else Raise ValueError.

(** [export_vtk_data]: the mesh is the caller's object, so the function
    returns it as it is after the call, with the outcome: the file written
    by [mesh.save(path)], as the pair of the path and the mesh saved. *)
Definition export_vtk_data (mesh : Mesh) (path : string) (cluster_labels : option array)
  : Mesh * result (string * Mesh) :=
  match cluster_labels with
  | Some labels =>
      match setitem_mesh "clusters" labels mesh with
      | Ok mesh' => (mesh', Ok (path, mesh'))
      | Raise e => (mesh, Raise e)
      end
  | None => (mesh, Ok (path, mesh))
  end.

(* ------------------------------------------------------------------ *)
(** * scale_data *)

(** A two-dimensional numeric array, as the list of its rows. *)
Definition matrix : Type := list (list Q).

(** What the embedding stage is given: a frame, or a plain array. *)
Inductive dataset : Type :=
| Frame (d : DataFrame)
| Matrix (m : matrix).

(** [data.values]: the rows of a frame. *)
Definition values (d : DataFrame) : matrix :=
  map (fun i => map (fun c => nth i (snd c) 0%Q) (cols d))
      (seq 0 (length (index d))).

(** The scalers of scikit-learn: [fit_transform kind X] is
    [<kind>().fit_transform(X)], an array of the shape of [X]. *)
Class Scalers : Type := {
  fit_transform : string -> matrix -> matrix
}.

(** [MinMaxScaler.__name__] and the like. *)
Definition scalers : list string := ["MinMaxScaler"; "StandardScaler"; "MaxAbsScaler"].

Definition scale_data {S : Scalers} (data : DataFrame) (scaler feature : string)
  : result dataset :=
  if negb (existsb (String.eqb scaler) scalers) then Raise ValueError else
  if negb (in_columns feature data) then Raise ValueError else
  if String.eqb feature "All" then
    if String.eqb scaler "MinMaxScaler" then
      Ok (Matrix (fit_transform "MinMaxScaler" (values data)))
    else if String.eqb scaler "StandardScaler" then
      Ok (Matrix (fit_transform "StandardScaler" (values data)))
    else if String.eqb scaler "MaxAbsScaler" then
      Ok (Matrix (fit_transform "MaxAbsScaler" (values data)))
    else Raise UnboundLocalError
  else
    let scaled_data := data in
    let reshaped := map (fun v => [v]) (column feature data) in
    let assign (m : matrix) :=
      mkDF (index scaled_data)
           (set_col feature (map (fun row => nth 0 row 0%Q) m) (cols scaled_data)) in
    if String.eqb scaler "MinMaxScaler" then
      Ok (Frame (assign (fit_transform "MinMaxScaler" reshaped)))
    else if String.eqb scaler "StandardScaler" then
      Ok (Frame (assign (fit_transform "StandardScaler" reshaped)))
    else if String.eqb scaler "MaxAbsScaler" then
      Ok (Frame (assign (fit_transform "MaxAbsScaler" reshaped)))
    else Ok (Frame scaled_data).

(* ------------------------------------------------------------------ *)
(** * embed_data

    The reducers are external: an estimator is built from the class and the
    keyword parameters, and is used through [fit], [transform] and
    [fit_transform], each of which may raise.  The calls made to them are
    logged, so that the order and the number of calls can be stated. *)

Inductive algorithm : Type :=
| UMAP
| TSNE
| OtherClass (name : string).

Definition algorithm_eqb (a b : algorithm) : bool :=
  match a, b with
  | UMAP, UMAP => true
  | TSNE, TSNE => true
  | OtherClass n, OtherClass m => String.eqb n m
  | _, _ => false
  end.

Class Reducers : Type := {
  params : Type;
  estimator : Type;
  construct : algorithm -> params -> result estimator;
  fit : estimator -> dataset -> result estimator;
  transform : estimator -> dataset -> result matrix;
  fit_and_transform : estimator -> dataset -> result matrix
}.

Inductive call : Type :=
| Construct (a : algorithm)
| Fit (data : dataset)
| Transform (data : dataset)
| FitTransform (data : dataset).

(** A computation that logs its calls to the reducer and may raise. *)
Definition traced (A : Type) : Type := (list call * result A)%type.

Definition tret {A : Type} (a : A) : traced A := ([], Ok a).

Definition tbind {A B : Type} (m : traced A) (f : A -> traced B) : traced B :=
  match m with
  | (log, Ok a) => let '(log', r) := f a in (log ++ log', r)
  | (log, Raise e) => (log, Raise e)
  end.

Definition lift {A : Type} (r : result A) : traced A := ([], r).

Definition logged {A : Type} (c : call) (r : result A) : traced A := ([c], r).

Notation "x <~ m ;; k" := (tbind m (fun x => k))
  (at level 61, m at next level, right associativity) : result_scope.

Definition embed_data {S : Scalers} {R : Reducers} (data : DataFrame) (alg : algorithm)
    (scale : bool) (scaler feature : string) (kwargs : params)
  : traced (matrix * option estimator) :=
  let algorithms := [UMAP; TSNE] in
  if negb (existsb (algorithm_eqb alg) algorithms) then lift (Raise ValueError) else
  data <~ lift (if scale then scale_data data scaler feature else Ok (Frame data)) ;;
  reducer <~ logged (Construct alg) (construct alg kwargs) ;;
  if algorithm_eqb alg UMAP then
    mapper <~ logged (Fit data) (fit reducer data) ;;
    embedding <~ logged (Transform data) (transform mapper data) ;;
    tret (embedding, Some mapper)
  else if algorithm_eqb alg TSNE then
    let mapper := None in
    embedding <~ logged (FitTransform data) (fit_and_transform reducer data) ;;
    tret (embedding, mapper)
  else lift (Raise UnboundLocalError).

(* ------------------------------------------------------------------ *)
(** * The colorizer, _set_cluster_member_colors *)

Definition color : Type := (Q * Q * Q)%type.

(** What the function reads of a fitted clusterer. *)
Record clusterer : Type := mkClusterer {
  labels_ : list Z;
  probabilities_ : list Q
}.

(** seaborn and hdbscan: [color_palette n] is [sns.color_palette('husl', n)],
    [desaturate c p] is [sns.desaturate(c, p)], which may raise, and
    [all_points_membership_vectors] is the soft clustering of hdbscan. *)
Class Drawing : Type := {
  color_palette : nat -> list color;
  desaturate : color -> Q -> result color;
  all_points_membership_vectors : clusterer -> matrix
}.

(** [np.unique(labels)], up to order: only its size and its members are
    used. *)
Definition unique (labels : list Z) : list Z := nodup Z.eq_dec labels.

(** [np.argmax(x)]: the first position of the greatest entry. *)
Fixpoint argmax_from (best : Q) (best_i i : nat) (x : list Q) : nat :=
  match x with
  | [] => best_i
  | v :: rest =>
      if Qle_bool v best then argmax_from best best_i (S i) rest
      else argmax_from v i (S i) rest
  end.

Definition argmax (x : list Q) : result nat :=
  match x with
  | [] => Raise ValueError
  | v :: rest => Ok (argmax_from v 0%nat 1%nat rest)
  end.

(** [palette[i]] for a non-negative [i]. *)
Definition getitem (palette : list color) (i : nat) : result color :=
  match nth_error palette i with
  | Some c => Ok c
  | None => Raise IndexError
  end.

Definition gray : color := (1 # 2, 1 # 2, 1 # 2)%Q.

Definition _set_cluster_member_colors {D : Drawing} (c : clusterer) (soft : bool)
  : result (list color * list color) :=
  let n_clusters := length (unique (labels_ c)) in
  let color_palette :=
    if existsb (Z.eqb (-1)) (unique (labels_ c))
    then color_palette (n_clusters - 1)%nat
    else color_palette n_clusters in
  cluster_colors <-
    (if soft then
       let soft_clusters := all_points_membership_vectors c in
       mapM (fun x => i <- argmax x ;; getitem color_palette i) soft_clusters
     else
       mapM (fun x => if 0 <=? x then getitem color_palette (Z.to_nat x)
                      else Ok gray)
            (labels_ c)) ;;
  cluster_member_colors <-
    mapM (fun '(x, p) => desaturate x p) (combine cluster_colors (probabilities_ c)) ;;
  Ok (cluster_member_colors, color_palette).

(* ------------------------------------------------------------------ *)
(** * The plots of dimred_interactive.py

    matplotlib is a drawing surface outside the repository.  A plot
    function is modelled by what it hands to that surface: the colours, the
    legend entries, the colour bar, the point size.  Point sizes are
    computed in floating point with a square root; they are kept as
    expressions.  The last step of every plot, saving the figure or showing
    it, is left out with its arguments. *)

(** [np.unique(labels)]: the distinct labels in increasing order. *)
Fixpoint insert_unique (x : Z) (l : list Z) : list Z :=
  match l with
  | [] => [x]
  | y :: rest =>
      if x <? y then x :: y :: rest
      else if x =? y then y :: rest
      else y :: insert_unique x rest
  end.

Definition np_unique (labels : list Z) : list Z := fold_right insert_unique [] labels.

(** The [s] argument of [plt.scatter]. *)
Inductive point_size : Type :=
| DefaultSize                        (* [None] *)
| FixedSize (s : Q)
| Scaled (factor : Q) (points : nat). (* [factor * 100.0 / np.sqrt(points)] *)

(** [_set_point_size(points)], for an array of [n] rows. *)
Definition _set_point_size (n : nat) : point_size := Scaled 1 n.

(** [5 * size] *)
Definition times5 (s : point_size) : point_size :=
  match s with
  | DefaultSize => DefaultSize
  | FixedSize q => FixedSize (5 * q)
  | Scaled factor n => Scaled (5 * factor) n
  end.

(** [_set_colors(n_clusters)]: the colours of the colour map and the
    boundaries [np.arange(-0.5, n_clusters)] of its norm. *)
Definition _set_colors {D : Drawing} (n_clusters : nat) : list color * list Q :=
  (color_palette n_clusters,
   map (fun i => inject_Z (Z.of_nat i) - (1 # 2))%Q (seq 0 (S n_clusters))).

(** [_set_legend(labels, cmap, ax)]: the patches handed to [ax.legend], each
    a face colour and a label; [cmap.colors[i]] raises when the colour map is
    too short. *)
Definition _set_legend (labels : list Z) (cmap_colors : list color)
  : result (list (color * Z)) :=
  let unique_labels := np_unique labels in
  mapM (fun '(i, unique_label) =>
          facecolor <- getitem cmap_colors i ;;
          Ok (facecolor, unique_label))
       (combine (seq 0 (length unique_labels)) unique_labels).

(** What [plot_clustering] draws. *)
Record clustering_plot : Type := mkClusteringPlot {
  warned : bool;                       (* [warnings.warn] was called *)
  scatter_size : point_size;
  scatter_cmap : list color;
  scatter_norm : list Q;
  legend_patches : option (list (color * Z));
  colorbar_ticks : option (list Z)     (* [np.arange(n_clusters)] *)
}.

Definition plot_clustering {D : Drawing} (embedding : matrix) (cluster_labels : list Z)
    (scale_points : bool) : result clustering_plot :=
  let n_clusters := length (np_unique cluster_labels) in
  let warned := (30 <? n_clusters)%nat in
  let '(cmap, norm) := _set_colors n_clusters in
  let point_size :=
    if scale_points then _set_point_size (length embedding) else DefaultSize in
  if (n_clusters <=? 12)%nat then
    patches <- _set_legend cluster_labels cmap ;;
    Ok (mkClusteringPlot warned point_size cmap norm (Some patches) None)
  else
    Ok (mkClusteringPlot warned point_size cmap norm None
                         (Some (map Z.of_nat (seq 0 n_clusters)))).

(** What [plot_cluster_membership] draws. *)
Record membership_plot : Type := mkMembershipPlot {
  member_size : point_size;
  member_colors : list color;
  member_legend : option (list (color * Z))
}.

Definition plot_cluster_membership {D : Drawing} (embedding : matrix) (c : clusterer)
    (scale_points legend soft : bool) : result membership_plot :=
  colored <- _set_cluster_member_colors c soft ;;
  let '(cluster_member_colors, color_palette) := colored in
  let point_size :=
    if scale_points then times5 (_set_point_size (length embedding))
    else FixedSize 20 in
  if legend then
    let unique_colors :=
      if existsb (Z.eqb (-1)) (np_unique (labels_ c))
      then gray :: color_palette
      else color_palette in
    patches <- _set_legend (labels_ c) unique_colors ;;
    Ok (mkMembershipPlot point_size cluster_member_colors (Some patches))
  else
    Ok (mkMembershipPlot point_size cluster_member_colors None).

(** What [plot_embedding] draws: the values that colour the points, the
    colour range and the label of the colour bar, when there are any. *)
Record embedding_plot : Type := mkEmbeddingPlot {
  embedding_size : point_size;
  color_values : option (list Q);
  color_range : option (Q * Q);
  colorbar_label : option string
}.

(** The truth value of an optional string: [None] and [''] are false. *)
Definition truthy (s : option string) : bool :=
  match s with
  | Some name => negb (String.eqb name "")
  | None => false
  end.

(** [cmap_var not in data.columns] *)
Definition not_in_columns (cmap_var : option string) (data : DataFrame) : bool :=
  match cmap_var with
  | Some name => negb (in_columns name data)
  | None => true
  end.

Definition plot_embedding (embedding : matrix) (data : DataFrame) (scale_points : bool)
    (cmap_var : option string) (cmap_minmax : list Q) : result embedding_plot :=
  if not_in_columns cmap_var data && truthy cmap_var then Raise ValueError else
  if negb (length cmap_minmax =? 2)%nat && negb (length cmap_minmax =? 0)%nat
  then Raise ValueError else
  let point_size :=
    if scale_points then _set_point_size (length embedding) else DefaultSize in
  if truthy cmap_var then
    let name := match cmap_var with Some name => name | None => "" end in
    if negb (length cmap_minmax =? 0)%nat then
      Ok (mkEmbeddingPlot point_size (Some (column name data))
                          (Some (nth 0 cmap_minmax 0%Q, nth 1 cmap_minmax 0%Q))
                          (Some name))
    else
      Ok (mkEmbeddingPlot point_size (Some (column name data)) None (Some name))
  else Ok (mkEmbeddingPlot point_size None None None).

(* ------------------------------------------------------------------ *)
(** * Definitions used to state the properties *)

(** The caller's frame once the validity rule of [clean_data] has run: the
    rows flagged 2 are gone when there is a validity column. *)
Definition after_ghost_rule (data : DataFrame) : DataFrame :=
  if in_columns "vtkGhostType" data
  then drop_rows (ghost_labels data) data
  else data.

(** The names listed by an optional argument. *)
Definition listed (vars : option (list string)) : list string :=
  match vars with
  | Some l => l
  | None => []
  end.

(** [name in names] *)
Definition mem (name : string) (names : list string) : bool :=
  existsb (String.eqb name) names.

(** What [embed_data] hands to the reducer: the scaled data when [scale]
    is set, the table as it is otherwise. *)
Definition prepared {S : Scalers} (data : DataFrame) (scale : bool)
    (scaler feature : string) : result dataset :=
  if scale then scale_data data scaler feature else Ok (Frame data).

(** The k-th component of every sample of a vector array. *)
Definition component (k : nat) (rows : list (list Q)) : list Q :=
  map (fun row => nth k row 0%Q) rows.

(** The colour of a hard label before desaturation: its palette entry, or
    gray for a negative label. *)
Definition hard_color (palette : list color) (x : Z) : result color :=
  if 0 <=? x then getitem palette (Z.to_nat x) else Ok gray.

(** The labels of [k] clusters: every label is -1 (noise) or one of
    0 .. k-1, and each of 0 .. k-1 is the label of some point. *)
Definition label_domain (k : nat) (labels : list Z) : Prop :=
  (forall x, In x labels -> -1 <= x < Z.of_nat k) /\
  (forall j, (j < k)%nat -> In (Z.of_nat j) labels).

(** The rows of a dataset. *)
Definition rows_of (d : dataset) : matrix :=
  match d with
  | Frame f => values f
  | Matrix m => m
  end.

(** The list [cols_to_drop] that the drop path of [clean_data] has
    collected when it calls [data.drop]. *)
Definition collected (data : DataFrame) (dim : Z) (vars_to_drop : option (list string))
  : list label :=
  (if in_columns "Points:0" data
   then [Nested ["Points:0"; "Points:1"; "Points:2"]] else [])
  ++ (if in_columns "vtkGhostType" data then [Name "vtkGhostType"] else [])
  ++ (if in_columns "U:0" data && (dim =? 2) then [Name "U:2"] else [])
  ++ map Name (listed vars_to_drop).

(** The column names that the drop rules other than the coordinate rule
    ask to remove. *)
Definition dropped_names (data : DataFrame) (dim : Z) (vars_to_drop : option (list string))
  : list string :=
  (if in_columns "vtkGhostType" data then ["vtkGhostType"] else [])
  ++ (if in_columns "U:0" data && (dim =? 2) then ["U:2"] else [])
  ++ listed vars_to_drop.

(** The rows of a table whose validity flag is not 2, in their order. *)
Definition unflagged_rows (data : DataFrame) : DataFrame :=
  let mask := map (fun v => negb (Qeq_bool v 2)) (column "vtkGhostType" data) in
  mkDF (select mask (index data))
       (map (fun c => (fst c, select mask (snd c))) (cols data)).

(** The columns that the one-dimensional arrays of a mesh give, and those
    that its two-dimensional arrays give, one per component. *)
Definition scalar_columns (arrs : list (string * array)) : list (string * list Q) :=
  flat_map (fun e =>
              match snd e with
              | Arr1 v => [(fst e, v)]
              | Arr2 _ _ => []
              end) arrs.

Definition vector_columns (arrs : list (string * array)) : list (string * list Q) :=
  flat_map (fun e =>
              match snd e with
              | Arr1 _ => []
              | Arr2 d rows =>
                  map (fun k => ((fst e ++ ":" ++ str k)%string, component k rows))
                      (seq 0 d)
              end) arrs.

(** An array over [N] samples: one value per sample, or one row of at
    least two components per sample. *)
Definition sampled (N : nat) (a : array) : Prop :=
  match a with
  | Arr1 v => length v = N
  | Arr2 d rows => length rows = N /\ (2 <= d)%nat
  end.

(** Whether an entry of a mesh is a two-dimensional array. *)
Definition is_vector (e : string * array) : bool :=
  match snd e with
  | Arr1 _ => false
  | Arr2 _ _ => true
  end.

(** The number of palette entries the colorizer asks for: one per distinct
    label, the noise label -1 not counted. *)
Definition palette_size (labels : list Z) : nat :=
  if existsb (Z.eqb (-1)) (unique labels)
  then (length (unique labels) - 1)%nat
  else length (unique labels).

(* ------------------------------------------------------------------ *)
(** * Example inputs *)

(** A table with spatial coordinates and one scalar. *)
Definition points_table : DataFrame :=
  mkDF [0; 1; 2]
       [("Points:0", [0; 1; 2]%Q); ("Points:1", [0; 0; 0]%Q);
        ("Points:2", [0; 0; 0]%Q); ("p", [5; 6; 7]%Q)].

(** A table with a validity column whose second row is flagged. *)
Definition ghost_table : DataFrame :=
  mkDF [0; 1; 2]
       [("vtkGhostType", [0; 2; 0]%Q); ("U:0", [1; 2; 3]%Q);
        ("U:1", [4; 5; 6]%Q); ("U:2", [7; 8; 9]%Q); ("p", [5; 6; 7]%Q)].

(** A planar velocity table. *)
Definition velocity_table : DataFrame :=
  mkDF [0; 1]
       [("U:0", [1; 2]%Q); ("U:1", [3; 4]%Q); ("U:2", [0; 0]%Q); ("p", [5; 6]%Q)].

(** The table with columns A and B. *)
Definition ab_table : DataFrame :=
  mkDF [0; 1] [("A", [1; 2]%Q); ("B", [3; 4]%Q)].

(** A mesh filter that keeps the mesh as it is. *)
Definition keep_all : MeshFilters := {| threshold := fun mesh => mesh |}.

(** The mesh without points that still declares the arrays A and V. *)
Definition empty_mesh : Mesh :=
  mkMesh 0 0 [("A", Arr1 []); ("V", Arr2 3 [])].

(** A mesh of three points and two cells whose scalar and velocity have
    one sample per cell. *)
Definition cell_mesh : Mesh :=
  mkMesh 3 2 [("A", Arr1 [9; 8]%Q); ("V", Arr2 3 [[1; 2; 3]; [4; 5; 6]]%Q)].

(** A mesh of two points with a scalar and a velocity. *)
Definition small_mesh : Mesh :=
  mkMesh 2 1 [("A", Arr1 [9; 8]%Q); ("V", Arr2 3 [[1; 2; 3]; [4; 5; 6]]%Q)].

(** A mesh of two points with a planar velocity, a temperature and a
    magnetic field. *)
Definition field_mesh : Mesh :=
  mkMesh 2 1 [("U", Arr2 2 [[1; 2]; [3; 4]]%Q); ("T", Arr1 [7; 8]%Q);
              ("B", Arr2 3 [[0; 1; 0]; [1; 0; 0]]%Q)].

(** Scalers that return their input. *)
Definition no_scaling : Scalers := {| fit_transform := fun _ X => X |}.

(** A reducer for the examples: the estimator counts its fits, an embedding
    is the data itself, and an estimator that was never fitted cannot
    transform. *)
Definition counting_reducers : Reducers := {|
  params := unit;
  estimator := nat;
  construct := fun _ _ => Ok 0%nat;
  fit := fun e _ => Ok (S e);
  transform := fun e d =>
    match e with
    | O => Raise (UpstreamError "not fitted")
    | S _ => Ok (rows_of d)
    end;
  fit_and_transform := fun _ d => Ok (rows_of d)
|}.

(** A drawing library for the examples.  The palette has [n] entries; the
    desaturation follows seaborn: it rejects a proportion outside [0, 1],
    returns the colour itself at 1, and otherwise moves every channel
    towards the lightness of the colour. *)
Definition sample_palette (n : nat) : list color :=
  map (fun i => (inject_Z (Z.of_nat i) / inject_Z (Z.of_nat n), 1 # 2, 1 # 3)%Q) (seq 0 n).

Definition toward_lightness (c : color) (p : Q) : color :=
  let '(r, g, b) := c in
  let l := ((Qmax r (Qmax g b) + Qmin r (Qmin g b)) / 2)%Q in
  (l + p * (r - l), l + p * (g - l), l + p * (b - l))%Q.

Definition sample_desaturate (c : color) (p : Q) : result color :=
  if Qle_bool 0 p && Qle_bool p 1
  then if Qeq_bool p 1 then Ok c else Ok (toward_lightness c p)
  else Raise ValueError.

Definition sample_drawing : Drawing := {|
  color_palette := sample_palette;
  desaturate := sample_desaturate;
  all_points_membership_vectors := fun _ => []
|}.


(** Labels with a gap: no point has the label 1. *)
Definition gap_clusterer : clusterer := mkClusterer [0; 2] [1; 1]%Q.

(** Three labels and two confidences. *)
Definition short_clusterer : clusterer := mkClusterer [0; 1; 1] [1; 1]%Q.

(** Four points in two clusters, one of them noise. *)
Definition sample_clusterer : clusterer :=
  mkClusterer [0; 1; -1; 1] [1; 1 # 2; 0; 3 # 4]%Q.

(* ------------------------------------------------------------------ *)
(** * Frames: general facts *)

Lemma in_columns_true (name : string) (d : DataFrame) :
  in_columns name d = true <-> In name (columns d).
Proof.
  unfold in_columns. rewrite existsb_exists. split.
  - intros [x [Hin Heq]]. apply String.eqb_eq in Heq. now subst.
  - intros Hin. exists name. split; [assumption | apply String.eqb_refl].
Qed.

Lemma in_columns_false (name : string) (d : DataFrame) :
  in_columns name d = false <-> ~ In name (columns d).
Proof.
  rewrite <- in_columns_true. destruct (in_columns name d); split; intros; congruence.
Qed.

Lemma columns_drop_rows (labels : list Z) (d : DataFrame) :
  columns (drop_rows labels d) = columns d.
Proof.
  unfold columns, drop_rows. simpl. rewrite map_map. reflexivity.
Qed.

Lemma in_columns_drop_rows (name : string) (labels : list Z) (d : DataFrame) :
  in_columns name (drop_rows labels d) = in_columns name d.
Proof. unfold in_columns. now rewrite columns_drop_rows. Qed.

Lemma select_all {A : Type} (f : Z -> bool) (idx : list Z) (l : list A) :
  length l = length idx ->
  (forall i, In i idx -> f i = true) ->
  select (map f idx) l = l.
Proof.
  revert l. induction idx as [|i idx IH]; intros [|x l] Hlen Hall; simpl in *;
    try discriminate; try reflexivity.
  rewrite (Hall i) by now left. f_equal. apply IH; [lia | auto].
Qed.

Lemma drop_rows_nil (d : DataFrame) :
  wf_frame d -> drop_rows [] d = d.
Proof.
  intros Hwf. destruct d as [idx cs]. unfold drop_rows, wf_frame in *. simpl in *.
  f_equal.
  - apply select_all; [reflexivity | reflexivity].
  - induction cs as [|[n v] cs IH]; simpl; [reflexivity|].
    inversion Hwf as [|? ? Hv Hcs]; subst. simpl in Hv.
    rewrite select_all by (auto; reflexivity). f_equal. now apply IH.
Qed.

Lemma columns_after_ghost_rule (data : DataFrame) :
  columns (after_ghost_rule data) = columns data.
Proof.
  unfold after_ghost_rule. destruct (in_columns _ data); [apply columns_drop_rows | reflexivity].
Qed.

Lemma valid_dim (dim : Z) :
  existsb (Z.eqb dim) [2; 3] = true <-> dim = 2 \/ dim = 3.
Proof.
  simpl. rewrite !orb_true_iff, !Z.eqb_eq. intuition discriminate.
Qed.


(* ------------------------------------------------------------------ *)
(** * clean_data: the dim check *)

(** C7. For every table and every [dim] other than 2 or 3, [clean_data]
    raises the argument error and the caller's table is, after the call,
    the table it was before: no row and no column has changed. *)
Theorem clean_data_invalid_dim (data : DataFrame) (dim : Z)
    (vars_to_drop vars_to_keep : option (list string)) :
  dim <> 2 -> dim <> 3 ->
  clean_data data dim vars_to_drop vars_to_keep = (data, Raise ValueError).
Proof.
  intros H2 H3. unfold clean_data.
  destruct (existsb (Z.eqb dim) [2; 3]) eqn:E; [|reflexivity].
  apply valid_dim in E. tauto.
Qed.

Lemma clean_data_invalid_dim_witness :
  4 <> 2 /\ 4 <> 3 /\
  clean_data ghost_table 4 (Some ["p"]) None = (ghost_table, Raise ValueError).
Proof.
  split; [lia | split; [lia | apply clean_data_invalid_dim; lia]].
Defined.

(* ------------------------------------------------------------------ *)
(** * clean_data: what happens to the caller's table *)




(* ------------------------------------------------------------------ *)
(** * clean_data: the spatial coordinate columns *)

Lemma drop_columns_nested (names : list string) (rest : list label) (d : DataFrame) :
  drop_columns (Nested names :: rest) d = Raise KeyError.
Proof. reflexivity. Qed.

(** C4. A table that has the column Points:0 makes the drop path fail: the
    three coordinate names are appended to [cols_to_drop] as one nested
    list, which is not a column label, so [data.drop] raises and no table
    is returned. *)
Theorem clean_data_points_raises (data : DataFrame) (dim : Z)
    (vars_to_drop : option (list string)) :
  in_columns "Points:0" data = true ->
  dim = 2 \/ dim = 3 ->
  snd (clean_data data dim vars_to_drop None) = Raise KeyError.
Proof.
  intros Hpts Hdim. apply valid_dim in Hdim. unfold clean_data.
  rewrite Hdim, Hpts. simpl negb. cbv iota.
  destruct (in_columns "vtkGhostType" data); simpl;
    repeat match goal with
           | |- context [if ?b then _ else _] => destruct b
           end;
    destruct vars_to_drop; reflexivity.
Qed.

Lemma clean_data_points_raises_witness :
  in_columns "Points:0" points_table = true /\
  (3 = 2 \/ 3 = 3) /\
  snd (clean_data points_table 3 None None) = Raise KeyError.
Proof.
  split; [reflexivity | split; [right; reflexivity |]].
  apply clean_data_points_raises; [reflexivity | right; reflexivity].
Defined.

(* ------------------------------------------------------------------ *)
(** * clean_data: the drop path *)

Lemma columns_filter (P : string -> bool) (cs : list (string * list Q)) :
  map fst (filter (fun c => P (fst c)) cs) = filter P (map fst cs).
Proof.
  induction cs as [|[n v] cs IH]; simpl; [reflexivity|].
  destruct (P n); simpl; now rewrite IH.
Qed.

Lemma lookup_col_filter (P : string -> bool) (name : string) (cs : list (string * list Q)) :
  P name = true ->
  lookup_col name (filter (fun c => P (fst c)) cs) = lookup_col name cs.
Proof.
  intros HP. induction cs as [|[n v] cs IH]; simpl; [reflexivity|].
  destruct (String.eqb name n) eqn:E.
  - apply String.eqb_eq in E. subst n. rewrite HP. simpl.
    now rewrite String.eqb_refl.
  - destruct (P n); simpl; [rewrite E|]; exact IH.
Qed.

Lemma existsb_label_names (name : string) (vars : list string) :
  existsb (label_is name) (map Name vars) = mem name vars.
Proof.
  unfold mem. induction vars as [|v vars IH]; simpl; [reflexivity|].
  now rewrite IH, (String.eqb_sym v name).
Qed.

Lemma forallb_found_names (d : DataFrame) (vars : list string) :
  (forall v, In v vars -> In v (columns d)) ->
  forallb (label_found d) (map Name vars) = true.
Proof.
  intros H. apply forallb_forall. intros l Hl.
  apply in_map_iff in Hl. destruct Hl as [v [<- Hv]]. simpl.
  apply in_columns_true. auto.
Qed.

Lemma mem_true (name : string) (names : list string) :
  mem name names = true <-> In name names.
Proof.
  unfold mem. rewrite existsb_exists. split.
  - intros [x [Hin Heq]]. apply String.eqb_eq in Heq. now subst.
  - intros Hin. exists name. split; [assumption | apply String.eqb_refl].
Qed.

(** The labels the drop path collects when there is no Points:0 column, the
    table has U:0 and [dim] is 2. *)
Lemma drop_columns_planar (d : DataFrame) (vars : list string) :
  In "U:2" (columns d) ->
  (forall v, In v vars -> In v (columns d)) ->
  drop_columns
    ((if in_columns "vtkGhostType" d then [Name "vtkGhostType"] else [])
       ++ [Name "U:2"] ++ map Name vars) d
  = Ok (mkDF (index d)
             (filter (fun c => negb (mem (fst c) ("U:2" :: "vtkGhostType" :: vars)))
                     (cols d))).
Proof.
  intros HU2 Hvars. unfold drop_columns.
  assert (Hfound : forallb (label_found d)
            ((if in_columns "vtkGhostType" d then [Name "vtkGhostType"] else [])
               ++ [Name "U:2"] ++ map Name vars) = true).
  { rewrite !forallb_app, forallb_found_names by assumption.
    apply in_columns_true in HU2. simpl. rewrite HU2.
    destruct (in_columns "vtkGhostType" d) eqn:E; simpl; now rewrite ?E. }
  rewrite Hfound. do 2 f_equal.
  apply filter_ext_in. intros [n v] Hin. simpl fst. f_equal.
  rewrite !existsb_app, existsb_label_names.
  unfold mem at 2. cbn [existsb label_is]. fold (mem n vars).
  rewrite (String.eqb_sym "U:2" n), orb_false_r.
  destruct (in_columns "vtkGhostType" d) eqn:E; cbn [existsb label_is].
  - rewrite (String.eqb_sym "vtkGhostType" n), orb_false_r.
    destruct (String.eqb n "vtkGhostType"), (String.eqb n "U:2"), (mem n vars); reflexivity.
  - assert (Hn : String.eqb n "vtkGhostType" = false).
    { apply String.eqb_neq. intros ->. apply in_columns_false in E. apply E.
      apply in_map_iff. now exists ("vtkGhostType", v). }
    rewrite Hn. reflexivity.
Qed.

(** The planar claim fails as it is stated, for every [vars_to_drop]: a name
    that is not a column makes the call raise, and a listed U:0 is dropped. *)
Lemma clean_data_planar_counterexample :
  In "U:0" (columns velocity_table) /\
  In "U:1" (columns velocity_table) /\
  In "U:2" (columns velocity_table) /\
  snd (clean_data velocity_table 2 (Some ["q"]) None) = Raise KeyError /\
  snd (clean_data velocity_table 2 (Some ["U:0"]) None)
  = Ok (mkDF [0; 1] [("U:1", [3; 4]%Q); ("p", [5; 6]%Q)]).
Proof.
  repeat split; simpl; auto.
Qed.

(** C5, amended. For every table that has U:0, U:1 and U:2 and no Points:0
    column, [clean_data] with [dim] 2, without [vars_to_keep] and with
    [vars_to_drop] absent or listing columns of the table returns a table
    whose columns are, in the table's order, those of the input other than
    U:2, the validity column and the listed ones (so U:0 and U:1 stay unless
    listed), each with the values it has in the caller's table once the
    flagged rows are gone (the input's own values when there is no validity
    column). *)
Theorem clean_data_planar (data : DataFrame) (vars_to_drop : option (list string)) :
  In "U:0" (columns data) -> In "U:1" (columns data) -> In "U:2" (columns data) ->
  ~ In "Points:0" (columns data) ->
  (forall v, In v (listed vars_to_drop) -> In v (columns data)) ->
  exists cleaned,
    snd (clean_data data 2 vars_to_drop None) = Ok cleaned /\
    columns cleaned
    = filter (fun n => negb (mem n ("U:2" :: "vtkGhostType" :: listed vars_to_drop)))
             (columns data) /\
    (forall n, In n (columns cleaned) <->
               In n (columns data) /\ n <> "U:2" /\ n <> "vtkGhostType" /\
               ~ In n (listed vars_to_drop)) /\
    (forall n, In n (columns cleaned) ->
               column n cleaned = column n (after_ghost_rule data)).
Proof.
  intros HU0 HU1 HU2 Hpts Hvars.
  set (kept := after_ghost_rule data).
  set (names := "U:2" :: "vtkGhostType" :: listed vars_to_drop).
  exists (reset_index
            (mkDF (index kept) (filter (fun c => negb (mem (fst c) names)) (cols kept)))).
  assert (Hcols : columns kept = columns data) by apply columns_after_ghost_rule.
  assert (Hcleaned :
    columns (reset_index
               (mkDF (index kept) (filter (fun c => negb (mem (fst c) names)) (cols kept))))
    = filter (fun n => negb (mem n names)) (columns data)).
  { unfold columns at 1. simpl. rewrite (columns_filter (fun n => negb (mem n names))).
    fold (columns kept). now rewrite Hcols. }
  assert (Hmem : forall n, In n (filter (fun n => negb (mem n names)) (columns data)) <->
               In n (columns data) /\ n <> "U:2" /\ n <> "vtkGhostType" /\
               ~ In n (listed vars_to_drop)).
  { intros n. rewrite filter_In, negb_true_iff.
    rewrite <- not_true_iff_false, mem_true. unfold names. simpl. intuition congruence. }
  split; [|split; [exact Hcleaned | split]].
  - unfold clean_data. simpl negb. cbv iota.
    apply in_columns_false in Hpts. rewrite Hpts.
    assert (HU0k : in_columns "U:0" kept = true).
    { apply in_columns_true. now rewrite Hcols. }
    assert (Hdrop := @drop_columns_planar kept (listed vars_to_drop)).
    rewrite Hcols in Hdrop. specialize (Hdrop HU2 Hvars). fold names in Hdrop.
    unfold kept, after_ghost_rule in *.
    destruct (in_columns "vtkGhostType" data) eqn:Eg.
    + rewrite in_columns_drop_rows, Eg in Hdrop.
      rewrite HU0k. simpl andb. cbv iota.
      destruct vars_to_drop as [vars|]; simpl in *.
      * rewrite Hdrop. reflexivity.
      * rewrite Hdrop. reflexivity.
    + rewrite Eg in Hdrop. rewrite HU0k. simpl andb. cbv iota.
      destruct vars_to_drop as [vars|]; simpl in *.
      * rewrite Hdrop. reflexivity.
      * rewrite Hdrop. reflexivity.
  - intros n. rewrite Hcleaned. apply Hmem.
  - intros n Hn. rewrite Hcleaned in Hn. apply filter_In in Hn. destruct Hn as [_ Hn].
    unfold column. simpl cols.
    now rewrite (lookup_col_filter (fun n => negb (mem n names))).
Qed.

Lemma clean_data_planar_witness :
  exists cleaned,
    snd (clean_data ghost_table 2 (Some ["p"]) None) = Ok cleaned /\
    columns cleaned = ["U:0"; "U:1"] /\
    column "U:1" cleaned = [4; 6]%Q.
Proof.
  destruct (@clean_data_planar ghost_table (Some ["p"])) as [cleaned [Hret [Hcols [_ Hvals]]]].
  - apply in_columns_true; reflexivity.
  - apply in_columns_true; reflexivity.
  - apply in_columns_true; reflexivity.
  - apply in_columns_false; reflexivity.
  - intros v [<-|[]]. apply in_columns_true; reflexivity.
  - exists cleaned. split; [exact Hret | split; [exact Hcols |]].
    rewrite Hvals; [reflexivity | rewrite Hcols; apply (mem_true "U:1"); reflexivity].
Defined.

(* ------------------------------------------------------------------ *)
(** * clean_data: the keep-list path *)

Lemma filter_name_absent (name : string) (cs : list (string * list Q)) :
  ~ In name (map fst cs) ->
  filter (fun c => String.eqb name (fst c)) cs = [].
Proof.
  induction cs as [|[n v] cs IH]; simpl; intros Hn; [reflexivity|].
  destruct (String.eqb name n) eqn:E.
  - apply String.eqb_eq in E. subst. exfalso. auto.
  - apply IH. auto.
Qed.

Lemma filter_name_unique (name : string) (cs : list (string * list Q)) :
  NoDup (map fst cs) -> In name (map fst cs) ->
  exists v, lookup_col name cs = Some v /\
            filter (fun c => String.eqb name (fst c)) cs = [(name, v)].
Proof.
  induction cs as [|[n v] cs IH]; simpl; intros Hnd Hin; [contradiction|].
  inversion Hnd as [|? ? Hn Hnd']; subst.
  destruct (String.eqb name n) eqn:E.
  - apply String.eqb_eq in E. subst n. exists v. split; [reflexivity|].
    now rewrite filter_name_absent.
  - apply String.eqb_neq in E. destruct Hin as [->|Hin]; [congruence|].
    now apply IH.
Qed.

Lemma getitem_list_unique (names : list string) (d : DataFrame) :
  NoDup (columns d) ->
  (forall v, In v names -> In v (columns d)) ->
  getitem_list names d = Ok (mkDF (index d) (map (fun v => (v, column v d)) names)).
Proof.
  intros Hnd Hnames. unfold getitem_list.
  assert (H : mapM (fun n =>
                match filter (fun c => String.eqb n (fst c)) (cols d) with
                | [] => Raise KeyError
                | found => Ok found
                end) names
              = Ok (map (fun v => [(v, column v d)]) names)).
  { induction names as [|n names IH]; simpl; [reflexivity|].
    destruct (@filter_name_unique n (cols d) Hnd) as [v [Hv Hf]].
    { apply Hnames. now left. }
    rewrite Hf. simpl. rewrite IH by (intros; apply Hnames; now right).
    simpl. unfold column. now rewrite Hv. }
  rewrite H. simpl. do 2 f_equal.
  clear. induction names as [|n names IH]; simpl; [reflexivity | now rewrite IH].
Qed.

(** The keep-list does not win over every other argument: the dim check
    comes first, and a name that is not a column raises. *)
Lemma clean_data_keep_list_counterexample :
  clean_data ab_table 4 (Some ["A"]) (Some ["A"]) = (ab_table, Raise ValueError) /\
  snd (clean_data ab_table 2 None (Some ["C"])) = Raise KeyError.
Proof. split; reflexivity. Qed.

(** C6, amended. For every table with unique column names, every [dim] in
    {2, 3} and every [vars_to_keep] that lists columns of the table, the
    result of [clean_data] is exactly the listed columns, in the order
    given, whatever [dim] and [vars_to_drop] are; each column has the values
    it has in the caller's table once the flagged rows are gone. *)
Theorem clean_data_keep_list (data : DataFrame) (dim : Z)
    (vars_to_drop : option (list string)) (vars_to_keep : list string) :
  dim = 2 \/ dim = 3 ->
  NoDup (columns data) ->
  (forall v, In v vars_to_keep -> In v (columns data)) ->
  exists cleaned,
    snd (clean_data data dim vars_to_drop (Some vars_to_keep)) = Ok cleaned /\
    columns cleaned = vars_to_keep /\
    cols cleaned = map (fun v => (v, column v (after_ghost_rule data))) vars_to_keep.
Proof.
  intros Hdim Hnd Hkeep.
  exists (mkDF (index (after_ghost_rule data))
               (map (fun v => (v, column v (after_ghost_rule data))) vars_to_keep)).
  split; [|split].
  - apply valid_dim in Hdim. unfold clean_data. rewrite Hdim. simpl negb. cbv iota.
    assert (Hget : getitem_list vars_to_keep (after_ghost_rule data)
                   = Ok (mkDF (index (after_ghost_rule data))
                              (map (fun v => (v, column v (after_ghost_rule data)))
                                   vars_to_keep))).
    { apply getitem_list_unique; rewrite columns_after_ghost_rule; assumption. }
    unfold after_ghost_rule in *.
    destruct (in_columns "vtkGhostType" data); exact Hget.
  - unfold columns. simpl. rewrite map_map. simpl. apply map_id.
  - reflexivity.
Qed.

Lemma clean_data_keep_list_witness :
  exists cleaned,
    snd (clean_data ab_table 2 (Some ["A"]) (Some ["A"])) = Ok cleaned /\
    columns cleaned = ["A"] /\
    cols cleaned = [("A", [1; 2]%Q)].
Proof.
  destruct (@clean_data_keep_list ab_table 2 (Some ["A"]) ["A"])
    as [cleaned [Hret [Hcols Hvals]]].
  - left; reflexivity.
  - repeat constructor; simpl; intuition discriminate.
  - intros v [<-|[]]. apply in_columns_true; reflexivity.
  - exists cleaned. split; [exact Hret | split; [exact Hcols | exact Hvals]].
Defined.

(* ------------------------------------------------------------------ *)
(** * scale_data *)

Section Scaling.
Context {S : Scalers}.

Lemma scale_data_unknown_scaler (data : DataFrame) (scaler feature : string) :
  mem scaler scalers = false ->
  scale_data data scaler feature = Raise ValueError.
Proof. unfold scale_data, mem. intros ->. reflexivity. Qed.

Lemma scale_data_unknown_feature (data : DataFrame) (scaler feature : string) :
  in_columns feature data = false ->
  scale_data data scaler feature = Raise ValueError.
Proof.
  unfold scale_data. intros ->.
  destruct (existsb (String.eqb scaler) scalers); reflexivity.
Qed.

(** The argument error is raised exactly when the scaler is not one of the
    three names or the feature is not a column of the table. *)
Lemma scale_data_raises_iff (data : DataFrame) (scaler feature : string) :
  scale_data data scaler feature = Raise ValueError <->
  mem scaler scalers = false \/ in_columns feature data = false.
Proof.
  split.
  - unfold scale_data, mem.
    destruct (existsb (String.eqb scaler) scalers) eqn:Es; [|now left].
    destruct (in_columns feature data); [|now right].
    cbn [negb]. cbv iota. cbn [existsb scalers] in Es.
    destruct (String.eqb feature "All");
      destruct (String.eqb scaler "MinMaxScaler");
      destruct (String.eqb scaler "StandardScaler");
      destruct (String.eqb scaler "MaxAbsScaler");
      intros H; discriminate.
  - intros [H|H]; [now apply scale_data_unknown_scaler
                  | now apply scale_data_unknown_feature].
Qed.

(** The all-columns branch is reached only by a table that has a column
    called All. *)
Lemma scale_data_all_branch (data : DataFrame) (scaler : string) :
  mem scaler scalers = true ->
  in_columns "All" data = true ->
  scale_data data scaler "All" = Ok (Matrix (fit_transform scaler (values data))).
Proof.
  unfold scale_data, mem. intros Hs ->. rewrite Hs. cbn [negb]. cbv iota.
  rewrite String.eqb_refl. cbn [existsb scalers] in Hs.
  destruct (String.eqb scaler "MinMaxScaler") eqn:E1;
    [apply String.eqb_eq in E1; now subst|].
  destruct (String.eqb scaler "StandardScaler") eqn:E2;
    [apply String.eqb_eq in E2; now subst|].
  destruct (String.eqb scaler "MaxAbsScaler") eqn:E3;
    [apply String.eqb_eq in E3; now subst|].
  discriminate.
Qed.

(** C1. With the sentinel ['All'] as the feature, [scale_data] does not
    scale every column: the membership test on [data.columns] comes before
    the test for the sentinel, so every table without a column called All
    is rejected with the argument error, whatever the scaler. *)
Theorem scale_data_all_sentinel_raises (data : DataFrame) (scaler : string) :
  ~ In "All" (columns data) ->
  scale_data data scaler "All" = Raise ValueError.
Proof.
  intros H. apply scale_data_unknown_feature. now apply in_columns_false.
Qed.

End Scaling.

Lemma scale_data_all_sentinel_raises_witness :
  ~ In "All" (columns ab_table) /\
  mem "StandardScaler" scalers = true /\
  scale_data (S := no_scaling) ab_table "StandardScaler" "All" = Raise ValueError.
Proof.
  assert (H : ~ In "All" (columns ab_table)) by (apply in_columns_false; reflexivity).
  split; [exact H | split; [reflexivity |]].
  apply scale_data_all_sentinel_raises. exact H.
Defined.

(* ------------------------------------------------------------------ *)
(** * import_vtk_data: flattening a scalar and a vector *)

(** The table of the claim is not produced for every such mesh.  On a mesh
    without points the vector is not detected: its size, 0, is the number of
    points, so V is taken for a scalar, no column V:0, V:1 or V:2 is made,
    and building the frame from arrays of different shapes raises.  On a
    mesh whose arrays are sampled on its cells, here 2 cells for 3 points,
    the size of the scalar differs from the number of points too, so A is
    taken for a vector and left out, and no frame can be built. *)
Lemma import_vtk_data_empty_mesh :
  size (Arr2 3 []) = n_points empty_mesh /\
  import_vtk_data (F := keep_all) empty_mesh = Raise ValueError /\
  size (Arr1 [9; 8]%Q) <> n_points cell_mesh /\
  import_vtk_data (F := keep_all) cell_mesh = Raise ValueError.
Proof. repeat split. discriminate. Qed.

Section Flattening.
Context {F : MeshFilters}.

Lemma size_vector_not_scalar (N : nat) (rows : list (list Q)) :
  (0 < N)%nat -> length rows = N ->
  (size (Arr2 3 rows) =? N)%nat = false.
Proof. intros HN Hlen. apply Nat.eqb_neq. simpl. lia. Qed.

(** The scalar and the vector on a mesh whose number of points is their
    number of samples, at least one. *)
Lemma import_point_sampled (cells : nat) (a : list Q) (v : list (list Q)) :
  (0 < length a)%nat -> length v = length a ->
  let table :=
    mkDF (map Z.of_nat (seq 0 (length a)))
         [("A", a); ("V:0", component 0 v); ("V:1", component 1 v);
          ("V:2", component 2 v)] in
  let mesh := mkMesh (length a) cells [("A", Arr1 a); ("V", Arr2 3 v)] in
  let mesh' := mkMesh (length a) cells [("V", Arr2 3 v); ("A", Arr1 a)] in
  import_vtk_data mesh = Ok (table, mesh) /\
  import_vtk_data mesh' = Ok (table, mesh').
Proof.
  intros HN Hv. cbv zeta.
  assert (Hsz := @size_vector_not_scalar (length a) v HN Hv).
  assert (Hrows : (length v =? length (map Z.of_nat (seq 0 (length a))))%nat = true).
  { rewrite length_map, length_seq. now apply Nat.eqb_eq. }
  split.
  - unfold import_vtk_data, array_names, get_array, frame_of_arrays, add_vector,
      setitem_list, get_array.
    cbn -[size Nat.eqb str]. rewrite Hsz.
    change (size (Arr1 a)) with (length a). rewrite !Nat.eqb_refl.
    cbn -[Nat.eqb str]. rewrite ?Nat.eqb_refl. cbn -[Nat.eqb str].
    rewrite Hrows. reflexivity.
  - unfold import_vtk_data, array_names, get_array, frame_of_arrays, add_vector,
      setitem_list, get_array.
    cbn -[size Nat.eqb str]. rewrite Hsz.
    change (size (Arr1 a)) with (length a). rewrite !Nat.eqb_refl.
    cbn -[Nat.eqb str]. rewrite ?Nat.eqb_refl. cbn -[Nat.eqb str].
    rewrite Hrows. reflexivity.
Qed.

(** The scalar and the vector on any other mesh: without samples, or with a
    number of points that is not the number of samples. *)
Lemma import_not_point_sampled (points cells : nat) (a : list Q) (v : list (list Q)) :
  length v = length a ->
  length a = 0%nat \/ points <> length a ->
  import_vtk_data (mkMesh points cells [("A", Arr1 a); ("V", Arr2 3 v)])
  = Raise ValueError /\
  import_vtk_data (mkMesh points cells [("V", Arr2 3 v); ("A", Arr1 a)])
  = Raise ValueError.
Proof.
  intros Hv Hbad.
  unfold import_vtk_data, array_names, get_array, frame_of_arrays.
  cbn -[size Nat.eqb str].
  change (size (Arr1 a)) with (length a).
  change (size (Arr2 3 v)) with (length v * 3)%nat.
  destruct (length a =? points)%nat eqn:Ea; destruct (length v * 3 =? points)%nat eqn:Ev;
    cbn -[Nat.eqb str]; rewrite ?Nat.eqb_refl; cbn -[Nat.eqb str];
    try (split; reflexivity).
  exfalso. apply Nat.eqb_eq in Ea. apply Nat.eqb_neq in Ev. lia.
Qed.

(** C2, amended. Take a mesh whose arrays are the scalar A and the vector V
    of width 3, both with N samples, in either order.  When the mesh has N
    points and N >= 1, [import_vtk_data] returns the mesh and the table with
    the N rows 0 .. N-1 and the columns A, V:0, V:1, V:2, where V:k holds
    component k of every sample of V in the order of the samples; so V:1 is
    the second component of every sample.  When N is 0, or the number of
    points of the mesh is not N (the arrays are sampled on the cells, say),
    the sizes mislead the detection of scalars and vectors, and the call
    raises instead of returning that table. *)
Theorem import_vtk_data_scalar_vector (points cells : nat)
    (a : list Q) (v : list (list Q)) :
  length v = length a ->
  let N := length a in
  let table :=
    mkDF (map Z.of_nat (seq 0 N))
         [("A", a); ("V:0", component 0 v); ("V:1", component 1 v);
          ("V:2", component 2 v)] in
  let mesh := mkMesh points cells [("A", Arr1 a); ("V", Arr2 3 v)] in
  let mesh' := mkMesh points cells [("V", Arr2 3 v); ("A", Arr1 a)] in
  ((0 < N)%nat -> points = N ->
   import_vtk_data mesh = Ok (table, mesh) /\
   import_vtk_data mesh' = Ok (table, mesh') /\
   length (index table) = N /\
   column "V:1" table = map (fun sample => nth 1 sample 0%Q) v) /\
  (N = 0%nat \/ points <> N ->
   import_vtk_data mesh = Raise ValueError /\
   import_vtk_data mesh' = Raise ValueError).
Proof.
  intros Hv. cbv zeta. split.
  - intros HN ->.
    destruct (import_point_sampled cells a v HN Hv) as [H1 H2].
    split; [exact H1 | split; [exact H2 | split]].
    + cbn [index]. now rewrite length_map, length_seq.
    + reflexivity.
  - intros Hbad. now apply import_not_point_sampled.
Qed.

End Flattening.

Lemma import_vtk_data_scalar_vector_witness :
  import_vtk_data (F := keep_all) small_mesh
  = Ok (mkDF [0; 1]
             [("A", [9; 8]%Q); ("V:0", [1; 4]%Q); ("V:1", [2; 5]%Q); ("V:2", [3; 6]%Q)],
        small_mesh) /\
  import_vtk_data (F := keep_all) cell_mesh = Raise ValueError.
Proof.
  split.
  - destruct (@import_vtk_data_scalar_vector keep_all 2 1
                [9; 8]%Q [[1; 2; 3]; [4; 5; 6]]%Q eq_refl) as [Hok _].
    destruct Hok as [H _]; [simpl; lia | reflexivity | exact H].
  - destruct (@import_vtk_data_scalar_vector keep_all 3 2
                [9; 8]%Q [[1; 2; 3]; [4; 5; 6]]%Q eq_refl) as [_ Hbad].
    destruct Hbad as [H _]; [right; simpl; lia | exact H].
Defined.

(* ------------------------------------------------------------------ *)
(** * export_vtk_data *)



Lemma names_set_array_new (name : string) (a : array) (l : list (string * array)) :
  ~ In name (map fst l) ->
  map fst (set_array name a l) = map fst l ++ [name].
Proof.
  induction l as [|[n b] l IH]; simpl; intros Hn; [reflexivity|].
  destruct (String.eqb name n) eqn:E.
  - apply String.eqb_eq in E. subst. exfalso. auto.
  - simpl. f_equal. apply IH. auto.
Qed.

Lemma names_set_array_old (name : string) (a : array) (l : list (string * array)) :
  In name (map fst l) ->
  map fst (set_array name a l) = map fst l.
Proof.
  induction l as [|[n b] l IH]; simpl; intros Hn; [contradiction|].
  destruct (String.eqb name n) eqn:E; simpl; [reflexivity|].
  f_equal. apply IH. destruct Hn as [->|Hn]; [|assumption].
  rewrite String.eqb_refl in E. discriminate.
Qed.



(* ------------------------------------------------------------------ *)
(** * embed_data: the two families of reducers *)

Section Embedding.
Context {S : Scalers} {R : Reducers}.

Lemma embed_data_unsupported (data : DataFrame) (name : string) (scale : bool)
    (scaler feature : string) (kwargs : params) :
  embed_data data (OtherClass name) scale scaler feature kwargs = ([], Raise ValueError).
Proof. reflexivity. Qed.

(** [embed_data] for UMAP, step by step. *)
Lemma embed_data_umap (data : DataFrame) (scale : bool) (scaler feature : string)
    (kwargs : params) :
  embed_data data UMAP scale scaler feature kwargs =
  (input <~ lift (prepared data scale scaler feature) ;;
   reducer <~ logged (Construct UMAP) (construct UMAP kwargs) ;;
   mapper <~ logged (Fit input) (fit reducer input) ;;
   embedding <~ logged (Transform input) (transform mapper input) ;;
   tret (embedding, Some mapper)).
Proof. reflexivity. Qed.

(** [embed_data] for t-SNE, step by step. *)
Lemma embed_data_tsne (data : DataFrame) (scale : bool) (scaler feature : string)
    (kwargs : params) :
  embed_data data TSNE scale scaler feature kwargs =
  (input <~ lift (prepared data scale scaler feature) ;;
   reducer <~ logged (Construct TSNE) (construct TSNE kwargs) ;;
   embedding <~ logged (FitTransform input) (fit_and_transform reducer input) ;;
   tret (embedding, None)).
Proof. reflexivity. Qed.

(** C8. Once the data handed to the reducer is there (the table, or the
    scaled data when [scale] is set) and the reducer's calls succeed:
    for UMAP the reducer is fitted once on the data, the fitted model
    transforms the same data into the embedding, and the pair of the
    embedding and the fitted model is returned; for t-SNE one
    [fit_transform] call on the data gives the embedding, and the model
    returned is [None].  Conversely every pair that [embed_data] returns
    has a fitted model for UMAP, after exactly one [fit] and one
    [transform] on the same data, and [None] for t-SNE, after exactly one
    [fit_transform]. *)
Theorem embed_data_dispatch (data : DataFrame) (scale : bool)
    (scaler feature : string) (kwargs : params) :
  (forall input reducer mapper embedding,
      prepared data scale scaler feature = Ok input ->
      construct UMAP kwargs = Ok reducer ->
      fit reducer input = Ok mapper ->
      transform mapper input = Ok embedding ->
      embed_data data UMAP scale scaler feature kwargs
      = ([Construct UMAP; Fit input; Transform input], Ok (embedding, Some mapper))) /\
  (forall input reducer embedding,
      prepared data scale scaler feature = Ok input ->
      construct TSNE kwargs = Ok reducer ->
      fit_and_transform reducer input = Ok embedding ->
      embed_data data TSNE scale scaler feature kwargs
      = ([Construct TSNE; FitTransform input], Ok (embedding, None))) /\
  (forall log embedding model,
      embed_data data UMAP scale scaler feature kwargs = (log, Ok (embedding, model)) ->
      exists input reducer mapper,
        prepared data scale scaler feature = Ok input /\
        construct UMAP kwargs = Ok reducer /\
        fit reducer input = Ok mapper /\
        transform mapper input = Ok embedding /\
        model = Some mapper /\
        log = [Construct UMAP; Fit input; Transform input]) /\
  (forall log embedding model,
      embed_data data TSNE scale scaler feature kwargs = (log, Ok (embedding, model)) ->
      exists input reducer,
        prepared data scale scaler feature = Ok input /\
        construct TSNE kwargs = Ok reducer /\
        fit_and_transform reducer input = Ok embedding /\
        model = None /\
        log = [Construct TSNE; FitTransform input]).
Proof.
  repeat split.
  - intros input reducer mapper embedding Hin Hnew Hfit Htr.
    rewrite embed_data_umap, Hin. unfold lift, logged, tbind, tret.
    now rewrite Hnew, Hfit, Htr.
  - intros input reducer embedding Hin Hnew Hft.
    rewrite embed_data_tsne, Hin. unfold lift, logged, tbind, tret.
    now rewrite Hnew, Hft.
  - intros log embedding model. rewrite embed_data_umap.
    unfold lift, logged, tbind, tret.
    destruct (prepared data scale scaler feature) as [input|]; [|discriminate].
    destruct (construct UMAP kwargs) as [reducer|]; [|discriminate].
    destruct (fit reducer input) as [mapper|] eqn:Hfit; [|discriminate].
    destruct (transform mapper input) as [e|] eqn:Htr; [|discriminate].
    simpl. intros H. inversion H; subst.
    exists input, reducer, mapper. repeat split; assumption.
  - intros log embedding model. rewrite embed_data_tsne.
    unfold lift, logged, tbind, tret.
    destruct (prepared data scale scaler feature) as [input|]; [|discriminate].
    destruct (construct TSNE kwargs) as [reducer|]; [|discriminate].
    destruct (fit_and_transform reducer input) as [e|] eqn:Hft; [|discriminate].
    simpl. intros H. inversion H; subst.
    exists input, reducer. repeat split; assumption.
Qed.

End Embedding.

Lemma embed_data_default_scaling_raises {S : Scalers} {R : Reducers}
    (data : DataFrame) (alg : algorithm) (scaler : string) (kwargs : params) :
  ~ In "All" (columns data) ->
  snd (embed_data data alg true scaler "All" kwargs) = Raise ValueError.
Proof.
  intros H. unfold embed_data.
  destruct (existsb (algorithm_eqb alg) [UMAP; TSNE]); [|reflexivity].
  cbn [negb]. cbv iota.
  now rewrite scale_data_unknown_feature by (now apply in_columns_false).
Qed.

Lemma embed_data_dispatch_witness :
  embed_data (S := no_scaling) (R := counting_reducers)
             ab_table UMAP false "StandardScaler" "All" tt
  = ([Construct UMAP; Fit (Frame ab_table); Transform (Frame ab_table)],
     Ok (values ab_table, Some 1%nat)) /\
  embed_data (S := no_scaling) (R := counting_reducers)
             ab_table TSNE false "StandardScaler" "All" tt
  = ([Construct TSNE; FitTransform (Frame ab_table)], Ok (values ab_table, None)).
Proof.
  destruct (@embed_data_dispatch no_scaling counting_reducers
              ab_table false "StandardScaler" "All" tt) as [Humap [Htsne _]].
  split.
  - apply (Humap (Frame ab_table) 0%nat 1%nat); reflexivity.
  - apply (Htsne (Frame ab_table) 0%nat); reflexivity.
Defined.

(* ------------------------------------------------------------------ *)
(** * List comprehensions that may raise *)

Lemma mapM_total {A B : Type} (f : A -> result B) (l : list A) :
  (forall x, In x l -> exists y, f x = Ok y) ->
  exists l', mapM f l = Ok l'.
Proof.
  induction l as [|x l IH]; intros Hf; simpl.
  - now exists [].
  - destruct (Hf x) as [y Hy]; [now left|].
    destruct IH as [l' Hl']; [intros; apply Hf; now right|].
    exists (y :: l'). now rewrite Hy, Hl'.
Qed.

Lemma mapM_ok_inv {A B : Type} (f : A -> result B) (l : list A) (l' : list B) :
  mapM f l = Ok l' ->
  length l' = length l /\
  forall i x, nth_error l i = Some x ->
              exists y, f x = Ok y /\ nth_error l' i = Some y.
Proof.
  revert l'. induction l as [|x l IH]; intros l' H; simpl in H.
  - inversion H; subst. split; [reflexivity|]. intros [|i] y Hy; discriminate.
  - destruct (f x) as [y|] eqn:Hy; [|discriminate]. simpl in H.
    destruct (mapM f l) as [ys|] eqn:Hys; [|discriminate]. simpl in H.
    inversion H; subst. destruct (IH ys eq_refl) as [Hlen Hnth].
    split; [simpl; now rewrite Hlen|].
    intros [|i] z Hz; simpl in *.
    + inversion Hz; subst. now exists y.
    + now apply Hnth.
Qed.

Lemma nth_error_combine {A B : Type} (l : list A) (l' : list B) (i : nat) (x : A) (y : B) :
  nth_error l i = Some x -> nth_error l' i = Some y ->
  nth_error (combine l l') i = Some (x, y).
Proof.
  revert l' i. induction l as [|a l IH]; intros [|b l'] [|i] Hx Hy; simpl in *;
    try discriminate.
  - now inversion Hx; inversion Hy.
  - now apply IH.
Qed.

(* ------------------------------------------------------------------ *)
(** * The colorizer with hard labels *)

Lemma unique_label_count (k : nat) (labels : list Z) :
  label_domain k labels ->
  length (unique labels)
  = if existsb (Z.eqb (-1)) (unique labels) then S k else k.
Proof.
  intros [Hrange Hall]. unfold unique.
  assert (Hnd : NoDup (nodup Z.eq_dec labels)) by apply NoDup_nodup.
  assert (Hseq : NoDup (map Z.of_nat (seq 0 k))).
  { apply Injective_map_NoDup; [intros a b; apply Nat2Z.inj | apply seq_NoDup]. }
  assert (Hin_seq : forall x, In x (map Z.of_nat (seq 0 k)) <-> 0 <= x < Z.of_nat k).
  { intros x. rewrite in_map_iff. split.
    - intros [j [<- Hj]]. apply in_seq in Hj. lia.
    - intros Hx. exists (Z.to_nat x). split; [lia | apply in_seq; lia]. }
  assert (Hlen : length (map Z.of_nat (seq 0 k)) = k)
    by (now rewrite length_map, length_seq).
  destruct (existsb (Z.eqb (-1)) (nodup Z.eq_dec labels)) eqn:E.
  - assert (Hneg : In (-1) labels).
    { apply existsb_exists in E. destruct E as [x [Hx Hx']].
      apply Z.eqb_eq in Hx'. subst x. now apply nodup_In in Hx. }
    assert (Hnd' : NoDup (-1 :: map Z.of_nat (seq 0 k))).
    { constructor; [|assumption]. rewrite Hin_seq. lia. }
    apply Nat.le_antisymm.
    + rewrite <- Hlen. change (length (nodup Z.eq_dec labels)
                                 <= length ((-1)%Z :: map Z.of_nat (seq 0 k)))%nat.
      apply NoDup_incl_length; [assumption|].
      intros x Hx. apply nodup_In in Hx. specialize (Hrange x Hx).
      destruct (Z.eq_dec x (-1)) as [->|Hne]; [now left | right].
      apply Hin_seq. lia.
    + rewrite <- Hlen. change (length ((-1)%Z :: map Z.of_nat (seq 0 k))
                                 <= length (nodup Z.eq_dec labels))%nat.
      apply NoDup_incl_length; [assumption|].
      intros x [<-|Hx]; apply nodup_In; [assumption|].
      apply Hin_seq in Hx. replace x with (Z.of_nat (Z.to_nat x)) by lia.
      apply Hall. lia.
  - assert (Hneg : ~ In (-1) labels).
    { intros Hin. apply (nodup_In Z.eq_dec) in Hin.
      assert (existsb (Z.eqb (-1)) (nodup Z.eq_dec labels) = true).
      { apply existsb_exists. exists (-1). split; [assumption | reflexivity]. }
      congruence. }
    apply Nat.le_antisymm.
    + rewrite <- Hlen.
      apply NoDup_incl_length; [assumption|].
      intros x Hx. apply nodup_In in Hx. specialize (Hrange x Hx).
      apply Hin_seq. destruct (Z.eq_dec x (-1)) as [->|Hne]; [contradiction | lia].
    + rewrite <- Hlen.
      apply NoDup_incl_length; [assumption|].
      intros x Hx. apply nodup_In.
      apply Hin_seq in Hx. replace x with (Z.of_nat (Z.to_nat x)) by lia.
      apply Hall. lia.
Qed.

Section Colorizer.
Context {D : Drawing}.

(** What the function relies on in seaborn: a palette of [n] colours has
    [n] entries; a proportion in [0, 1] is accepted; at proportion 1 the
    colour comes back as it is. *)
Hypothesis palette_length : forall n, length (color_palette n) = n.
Hypothesis desaturate_accepts :
  forall c p, (0 <= p)%Q -> (p <= 1)%Q -> exists c', desaturate c p = Ok c'.
Hypothesis desaturate_full : forall c p, (p == 1)%Q -> desaturate c p = Ok c.

Lemma palette_of_labels (k : nat) (labels : list Z) :
  label_domain k labels ->
  (if existsb (Z.eqb (-1)) (unique labels)
   then color_palette (length (unique labels) - 1)%nat
   else color_palette (length (unique labels)))
  = color_palette k.
Proof.
  intros Hdom. rewrite (unique_label_count Hdom).
  destruct (existsb (Z.eqb (-1)) (unique labels)); f_equal; lia.
Qed.

Lemma hard_color_total (k : nat) (labels : list Z) (x : Z) :
  label_domain k labels -> In x labels ->
  exists c, hard_color (color_palette k) x = Ok c.
Proof.
  intros [Hrange _] Hx. specialize (Hrange x Hx). unfold hard_color, getitem.
  destruct (0 <=? x) eqn:E; [|now exists gray].
  apply Z.leb_le in E.
  destruct (nth_error (color_palette k) (Z.to_nat x)) as [c|] eqn:Hc; [now exists c|].
  apply nth_error_None in Hc. rewrite palette_length in Hc. lia.
Qed.

(** C9. For a clusterer whose labels are those of [k] clusters, with one
    confidence in [0, 1] per point, the colorizer with [soft] false
    returns one colour per point and the palette of [k] colours.  The
    colour of a point with the label [x >= 0] is the entry number [x] of
    the palette, and gray for the noise label, desaturated with the point's
    own confidence [p] as the proportion of saturation kept, so the part
    removed is [1 - p]; both lie in [0, 1], and a point of confidence 1 has
    the palette colour itself. *)
Theorem hard_member_colors (c : clusterer) (k : nat) :
  label_domain k (labels_ c) ->
  length (probabilities_ c) = length (labels_ c) ->
  (forall p, In p (probabilities_ c) -> (0 <= p)%Q /\ (p <= 1)%Q) ->
  exists colors,
    _set_cluster_member_colors c false = Ok (colors, color_palette k) /\
    length colors = length (labels_ c) /\
    forall i x p,
      nth_error (labels_ c) i = Some x ->
      nth_error (probabilities_ c) i = Some p ->
      exists base shown,
        (0 <= x -> nth_error (color_palette k) (Z.to_nat x) = Some base) /\
        (x < 0 -> base = (1 # 2, 1 # 2, 1 # 2)%Q) /\
        desaturate base p = Ok shown /\
        nth_error colors i = Some shown /\
        (0 <= p)%Q /\ (p <= 1)%Q /\ (0 <= 1 - p)%Q /\ (1 - p <= 1)%Q /\
        ((p == 1)%Q -> shown = base).
Proof.
  intros Hdom Hlen Hprob.
  destruct (@mapM_total _ _ (hard_color (color_palette k)) (labels_ c))
    as [cluster_colors Hcc].
  { intros x Hx. now apply hard_color_total with (labels := labels_ c). }
  destruct (mapM_ok_inv _ _ Hcc) as [Hcc_len Hcc_nth].
  destruct (@mapM_total _ _ (fun '(x, p) => desaturate x p)
              (combine cluster_colors (probabilities_ c))) as [colors Hcol].
  { intros [x p] Hxp. apply in_combine_r in Hxp.
    destruct (Hprob p Hxp). now apply desaturate_accepts. }
  destruct (mapM_ok_inv _ _ Hcol) as [Hcol_len Hcol_nth].
  exists colors. split; [|split].
  - unfold _set_cluster_member_colors.
    rewrite (palette_of_labels Hdom).
    change (mapM (fun x : Z => if 0 <=? x
                               then getitem (color_palette k) (Z.to_nat x)
                               else Ok gray) (labels_ c))
      with (mapM (hard_color (color_palette k)) (labels_ c)).
    rewrite Hcc. cbn [bind]. rewrite Hcol. reflexivity.
  - rewrite Hcol_len, length_combine, Hcc_len, Hlen. apply Nat.min_id.
  - intros i x p Hx Hp.
    destruct (Hcc_nth i x Hx) as [base [Hbase Hbase_i]].
    destruct (Hcol_nth i (base, p) (nth_error_combine _ _ _ Hbase_i Hp))
      as [shown [Hshown Hshown_i]].
    assert (Hin : In p (probabilities_ c)) by (eapply nth_error_In; eassumption).
    destruct (Hprob p Hin) as [H0 H1].
    exists base, shown. repeat split; try assumption.
    + intros Hpos. unfold hard_color, getitem in Hbase.
      rewrite (proj2 (Z.leb_le 0 x) Hpos) in Hbase.
      destruct (nth_error (color_palette k) (Z.to_nat x)); congruence.
    + intros Hneg. unfold hard_color, gray in Hbase.
      destruct (0 <=? x) eqn:E; [apply Z.leb_le in E; lia | congruence].
    + unfold Qminus. rewrite <- (Qplus_opp_r p). apply Qplus_le_l. exact H1.
    + rewrite <- (Qplus_0_r 1) at 2. unfold Qminus. apply Qplus_le_r.
      apply (Qopp_le_compat 0 p) in H0. exact H0.
    + intros Hone. rewrite (desaturate_full base Hone) in Hshown. congruence.
Qed.

End Colorizer.

Lemma sample_palette_length (n : nat) : length (sample_palette n) = n.
Proof. unfold sample_palette. now rewrite length_map, length_seq. Qed.

Lemma sample_desaturate_accepts (c : color) (p : Q) :
  (0 <= p)%Q -> (p <= 1)%Q -> exists c', sample_desaturate c p = Ok c'.
Proof.
  intros H0 H1. unfold sample_desaturate.
  apply Qle_bool_iff in H0, H1. rewrite H0, H1. simpl.
  destruct (Qeq_bool p 1); eauto.
Qed.

Lemma sample_desaturate_full (c : color) (p : Q) :
  (p == 1)%Q -> sample_desaturate c p = Ok c.
Proof.
  intros H. unfold sample_desaturate.
  assert (H0 : Qle_bool 0 p = true) by (apply Qle_bool_iff; rewrite H; discriminate).
  assert (H1 : Qle_bool p 1 = true) by (apply Qle_bool_iff; rewrite H; apply Qle_refl).
  apply Qeq_bool_iff in H. now rewrite H0, H1, H.
Qed.

Lemma sample_label_domain : label_domain 2 (labels_ sample_clusterer).
Proof.
  split.
  - intros x Hx. simpl in Hx. decompose [or] Hx; subst; try contradiction; lia.
  - intros [|[|j]] Hj; simpl; [auto | auto | lia].
Qed.

Lemma hard_member_colors_witness :
  exists colors,
    _set_cluster_member_colors (D := sample_drawing) sample_clusterer false
    = Ok (colors, sample_palette 2) /\
    length colors = 4%nat /\
    nth_error colors 0 = nth_error (sample_palette 2) 0 /\
    (exists base shown,
        nth_error (sample_palette 2) 1 = Some base /\
        sample_desaturate base (1 # 2) = Ok shown /\
        nth_error colors 1 = Some shown) /\
    (exists shown,
        sample_desaturate gray 0 = Ok shown /\ nth_error colors 2 = Some shown).
Proof.
  destruct (@hard_member_colors sample_drawing sample_palette_length
              sample_desaturate_accepts sample_desaturate_full
              sample_clusterer 2%nat) as [colors [Hret [Hlen Hpoint]]].
  - exact sample_label_domain.
  - reflexivity.
  - intros p Hp. simpl in Hp.
    decompose [or] Hp; subst; try contradiction; split; discriminate.
  - exists colors. split; [exact Hret | split; [exact Hlen | split; [|split]]].
    + destruct (Hpoint 0%nat 0 1%Q eq_refl eq_refl)
        as [base [shown [Hbase [_ [_ [Hshown [_ [_ [_ [_ Hfull]]]]]]]]]].
      rewrite Hshown, (Hfull (Qeq_refl 1)). symmetry. apply Hbase. lia.
    + destruct (Hpoint 1%nat 1 (1 # 2)%Q eq_refl eq_refl)
        as [base [shown [Hbase [_ [Hdes [Hshown _]]]]]].
      exists base, shown. split; [apply Hbase; lia | split; assumption].
    + destruct (Hpoint 2%nat (-1) 0%Q eq_refl eq_refl)
        as [base [shown [_ [Hgray [Hdes [Hshown _]]]]]].
      exists shown. change gray with (1 # 2, 1 # 2, 1 # 2)%Q.
      rewrite <- (Hgray ltac:(lia)). split; assumption.
Defined.

(* ------------------------------------------------------------------ *)
(** * clean_data: a normal form *)

Lemma clean_data_normal (data : DataFrame) (dim : Z)
    (vars_to_drop vars_to_keep : option (list string)) :
  clean_data data dim vars_to_drop vars_to_keep =
  if existsb (Z.eqb dim) [2; 3]
  then (after_ghost_rule data,
        match vars_to_keep with
        | Some keep => getitem_list keep (after_ghost_rule data)
        | None =>
            cleaned_data <- drop_columns (collected data dim vars_to_drop)
                                         (after_ghost_rule data) ;;
            Ok (reset_index cleaned_data)
        end)
  else (data, Raise ValueError).
Proof.
  unfold clean_data, after_ghost_rule, collected.
  destruct (existsb (Z.eqb dim) [2; 3]); cbn [negb]; cbv iota; [|reflexivity].
  destruct (in_columns "vtkGhostType" data) eqn:Eg;
    destruct vars_to_keep as [keep|]; try reflexivity.
  - rewrite in_columns_drop_rows.
    destruct (in_columns "Points:0" data), (in_columns "U:0" data && (dim =? 2)),
      vars_to_drop; cbn [listed map app]; rewrite ?app_nil_r; reflexivity.
  - destruct (in_columns "Points:0" data), (in_columns "U:0" data && (dim =? 2)),
      vars_to_drop; cbn [listed map app]; rewrite ?app_nil_r; reflexivity.
Qed.

Lemma getitem_list_index (names : list string) (d cleaned : DataFrame) :
  getitem_list names d = Ok cleaned -> index cleaned = index d.
Proof.
  unfold getitem_list. destruct (mapM _ names); simpl; intros H; inversion H.
  reflexivity.
Qed.

Lemma drop_columns_index (labels : list label) (d cleaned : DataFrame) :
  drop_columns labels d = Ok cleaned -> index cleaned = index d.
Proof.
  unfold drop_columns. destruct (forallb _ labels); intros H; inversion H.
  reflexivity.
Qed.

(** X1. Whenever [clean_data] returns a table: on the drop path its row
    index is the dense range 0 .. n-1, with n the number of rows left in the
    caller's table; on the keep-list path the index is not renumbered, the
    rows keep the labels they have in the caller's table. *)
Theorem clean_data_row_index (data : DataFrame) (dim : Z)
    (vars_to_drop vars_to_keep : option (list string)) (cleaned : DataFrame) :
  snd (clean_data data dim vars_to_drop vars_to_keep) = Ok cleaned ->
  match vars_to_keep with
  | Some _ => index cleaned = index (after_ghost_rule data)
  | None =>
      index cleaned
      = map Z.of_nat (seq 0 (length (index (after_ghost_rule data))))
  end.
Proof.
  rewrite clean_data_normal.
  destruct (existsb (Z.eqb dim) [2; 3]); [|discriminate]. cbn [snd].
  destruct vars_to_keep as [keep|].
  - apply getitem_list_index.
  - destruct (drop_columns _ _) as [c|] eqn:E; [|discriminate].
    cbn [bind]. intros H. inversion H. unfold reset_index. cbn [index].
    now rewrite (drop_columns_index _ _ E).
Qed.

Lemma clean_data_row_index_witness :
  (snd (clean_data ghost_table 2 None None)
   = Ok (mkDF [0; 1] [("U:0", [1; 3]%Q); ("U:1", [4; 6]%Q); ("p", [5; 7]%Q)]) /\
   index (mkDF [0; 1] [("U:0", [1; 3]%Q); ("U:1", [4; 6]%Q); ("p", [5; 7]%Q)]) = [0; 1]) /\
  (snd (clean_data ghost_table 2 None (Some ["p"])) = Ok (mkDF [0; 2] [("p", [5; 7]%Q)]) /\
   index (mkDF [0; 2] [("p", [5; 7]%Q)]) = [0; 2]).
Proof.
  split; (split; [reflexivity|]).
  - apply (@clean_data_row_index ghost_table 2 None None). reflexivity.
  - apply (@clean_data_row_index ghost_table 2 None (Some ["p"])). reflexivity.
Defined.

(* ------------------------------------------------------------------ *)
(** * clean_data: rows and well-formed tables *)

Lemma select_length {A B : Type} (mask : list bool) (l : list A) (l' : list B) :
  length l = length mask -> length l' = length mask ->
  length (select mask l) = length (select mask l').
Proof.
  revert l l'. induction mask as [|b mask IH]; intros [|x l] [|y l'] Hl Hl';
    simpl in *; try discriminate; try reflexivity.
  destruct b; simpl; [f_equal|]; apply IH; lia.
Qed.

Lemma wf_drop_rows (labels : list Z) (d : DataFrame) :
  wf_frame d -> wf_frame (drop_rows labels d).
Proof.
  unfold wf_frame, drop_rows. cbn [index cols]. intros Hwf.
  apply Forall_map. eapply Forall_impl; [|exact Hwf].
  intros [n v] Hv. cbn [fst snd] in *.
  apply select_length; now rewrite length_map.
Qed.

Lemma wf_after_ghost_rule (d : DataFrame) :
  wf_frame d -> wf_frame (after_ghost_rule d).
Proof.
  unfold after_ghost_rule. destruct (in_columns _ d); [apply wf_drop_rows | auto].
Qed.

Lemma mapM_ok_in {A B : Type} (f : A -> result B) (l : list A) (l' : list B) :
  mapM f l = Ok l' ->
  forall y, In y l' -> exists x, In x l /\ f x = Ok y.
Proof.
  revert l'. induction l as [|x l IH]; intros l' H; simpl in H.
  - inversion H; subst. intros y [].
  - destruct (f x) as [y0|] eqn:Hy; [|discriminate]. simpl in H.
    destruct (mapM f l) as [ys|] eqn:Hys; [|discriminate]. simpl in H.
    inversion H; subst. intros y [<-|Hin].
    + exists x. split; [now left | assumption].
    + destruct (IH ys eq_refl y Hin) as [x' [Hx' Hfx']].
      exists x'. split; [now right | assumption].
Qed.

Lemma getitem_list_cols (names : list string) (d cleaned : DataFrame) :
  getitem_list names d = Ok cleaned ->
  forall c, In c (cols cleaned) -> In c (cols d).
Proof.
  unfold getitem_list.
  destruct (mapM _ names) as [cs|] eqn:E; simpl; intros H; inversion H; subst.
  cbn [cols]. intros c Hc. apply in_concat in Hc. destruct Hc as [found [Hfound Hc]].
  destruct (mapM_ok_in _ _ E found Hfound) as [n [_ Hn]].
  destruct (filter (fun c0 => String.eqb n (fst c0)) (cols d)) as [|c0 rest] eqn:Ef;
    [discriminate|].
  inversion Hn; subst. rewrite <- Ef in Hc. now apply filter_In in Hc.
Qed.

Lemma drop_columns_cols (labels : list label) (d cleaned : DataFrame) :
  drop_columns labels d = Ok cleaned ->
  forall c, In c (cols cleaned) -> In c (cols d).
Proof.
  unfold drop_columns. destruct (forallb _ labels); intros H; inversion H; subst.
  cbn [cols]. intros c Hc. now apply filter_In in Hc.
Qed.

(** X2. [clean_data] keeps tables well formed: when every column of the
    caller's table has one value per row, the same holds of the caller's
    table after the call and of every table the call returns. *)
Theorem clean_data_well_formed (data : DataFrame) (dim : Z)
    (vars_to_drop vars_to_keep : option (list string)) :
  wf_frame data ->
  wf_frame (fst (clean_data data dim vars_to_drop vars_to_keep)) /\
  forall cleaned,
    snd (clean_data data dim vars_to_drop vars_to_keep) = Ok cleaned ->
    wf_frame cleaned.
Proof.
  intros Hwf. rewrite clean_data_normal.
  assert (Hk := wf_after_ghost_rule Hwf).
  destruct (existsb (Z.eqb dim) [2; 3]); cbn [fst snd]; [|split; [assumption | discriminate]].
  split; [assumption|]. intros cleaned.
  destruct vars_to_keep as [keep|].
  - intros H. unfold wf_frame. rewrite (getitem_list_index _ _ H).
    apply Forall_forall. intros c Hc.
    apply (getitem_list_cols _ _ H) in Hc.
    unfold wf_frame in Hk. rewrite Forall_forall in Hk. now apply Hk.
  - destruct (drop_columns _ _) as [c|] eqn:E; [|discriminate].
    cbn [bind]. intros H. inversion H; subst.
    unfold wf_frame, reset_index. cbn [index cols].
    rewrite length_map, length_seq, (drop_columns_index _ _ E).
    apply Forall_forall. intros c0 Hc0. apply (drop_columns_cols _ _ E) in Hc0.
    unfold wf_frame in Hk. rewrite Forall_forall in Hk. now apply Hk.
Qed.

Lemma clean_data_well_formed_witness :
  wf_frame ghost_table /\
  wf_frame (fst (clean_data ghost_table 2 (Some ["p"]) None)) /\
  wf_frame (mkDF [0; 1] [("U:0", [1; 3]%Q); ("U:1", [4; 6]%Q)]).
Proof.
  assert (Hwf : wf_frame ghost_table) by (repeat constructor).
  destruct (@clean_data_well_formed ghost_table 2 (Some ["p"]) None Hwf) as [Hfst Hsnd].
  split; [exact Hwf | split; [exact Hfst |]].
  apply Hsnd. reflexivity.
Defined.

(* ------------------------------------------------------------------ *)
(** * clean_data: which rows go *)

Lemma lookup_col_map (f : list Q -> list Q) (name : string) (cs : list (string * list Q)) :
  lookup_col name (map (fun c => (fst c, f (snd c))) cs)
  = option_map f (lookup_col name cs).
Proof.
  induction cs as [|[n v] cs IH]; simpl; [reflexivity|].
  destruct (String.eqb name n); [reflexivity | exact IH].
Qed.

Lemma lookup_col_in (name : string) (cs : list (string * list Q)) (v : list Q) :
  lookup_col name cs = Some v -> In (name, v) cs.
Proof.
  induction cs as [|[n w] cs IH]; simpl; [discriminate|].
  destruct (String.eqb name n) eqn:E.
  - apply String.eqb_eq in E. subst. intros H. inversion H. now left.
  - intros H. right. now apply IH.
Qed.

Lemma lookup_col_some (name : string) (cs : list (string * list Q)) :
  In name (map fst cs) -> exists v, lookup_col name cs = Some v.
Proof.
  induction cs as [|[n w] cs IH]; simpl; [contradiction|].
  intros [->|Hin].
  - rewrite String.eqb_refl. now exists w.
  - destruct (String.eqb name n); [now exists w | now apply IH].
Qed.

(** In a well-formed table with a validity column, that column has one
    value per row. *)
Lemma ghost_column_length (d : DataFrame) :
  wf_frame d -> in_columns "vtkGhostType" d = true ->
  length (column "vtkGhostType" d) = length (index d).
Proof.
  intros Hwf Hg. apply in_columns_true in Hg.
  destruct (lookup_col_some _ _ Hg) as [v Hv].
  unfold column. rewrite Hv. apply lookup_col_in in Hv.
  unfold wf_frame in Hwf. rewrite Forall_forall in Hwf. exact (Hwf _ Hv).
Qed.

Lemma select_flagged_gone (labels : list Z) (idx : list Z) (g : list Q) :
  length g = length idx ->
  incl (select (map (fun v => Qeq_bool v 2) g) idx) labels ->
  Forall (fun v => Qeq_bool v 2 = false)
         (select (map (fun i => negb (existsb (Z.eqb i) labels)) idx) g).
Proof.
  revert g. induction idx as [|i idx IH]; intros [|v g] Hlen Hincl; simpl in *;
    try discriminate; [constructor|].
  destruct (Qeq_bool v 2) eqn:Ev.
  - assert (Hi : existsb (Z.eqb i) labels = true).
    { apply existsb_exists. exists i. split; [apply Hincl; now left | apply Z.eqb_refl]. }
    rewrite Hi. simpl. apply IH; [lia|]. intros x Hx. apply Hincl. now right.
  - destruct (existsb (Z.eqb i) labels); simpl.
    + apply IH; [lia | assumption].
    + constructor; [assumption|]. apply IH; [lia | assumption].
Qed.

Lemma select_none {A : Type} (g : list Q) (l : list A) :
  Forall (fun v => Qeq_bool v 2 = false) g ->
  select (map (fun v => Qeq_bool v 2) g) l = [].
Proof.
  intros Hg. revert l. induction Hg as [|v g Hv Hg IH]; intros [|x l]; simpl;
    try reflexivity.
  rewrite Hv. apply IH.
Qed.

Lemma column_drop_rows (name : string) (labels : list Z) (d : DataFrame) :
  In name (columns d) ->
  column name (drop_rows labels d)
  = select (map (fun i => negb (existsb (Z.eqb i) labels)) (index d)) (column name d).
Proof.
  intros Hin. destruct (lookup_col_some _ _ Hin) as [v Hv].
  unfold column, drop_rows. cbn [cols].
  rewrite (lookup_col_map (select (map (fun i => negb (existsb (Z.eqb i) labels)) (index d)))).
  now rewrite Hv.
Qed.

Lemma no_flag_after_ghost_rule (d : DataFrame) :
  wf_frame d ->
  Forall (fun v => Qeq_bool v 2 = false) (column "vtkGhostType" (after_ghost_rule d)).
Proof.
  intros Hwf. unfold after_ghost_rule.
  destruct (in_columns "vtkGhostType" d) eqn:Eg.
  - rewrite column_drop_rows by now apply in_columns_true.
    apply select_flagged_gone; [now apply ghost_column_length | apply incl_refl].
  - unfold column. apply in_columns_false in Eg.
    destruct (lookup_col "vtkGhostType" (cols d)) as [v|] eqn:Ev; [|constructor].
    apply lookup_col_in in Ev. exfalso. apply Eg.
    apply in_map_iff. now exists ("vtkGhostType", v).
Qed.

Lemma after_ghost_rule_idempotent (d : DataFrame) :
  wf_frame d -> after_ghost_rule (after_ghost_rule d) = after_ghost_rule d.
Proof.
  intros Hwf. unfold after_ghost_rule at 1.
  destruct (in_columns "vtkGhostType" (after_ghost_rule d)); [|reflexivity].
  unfold ghost_labels. rewrite (select_none _ (no_flag_after_ghost_rule Hwf)).
  apply drop_rows_nil. now apply wf_after_ghost_rule.
Qed.

(** X3. After a call with a valid [dim] on a well-formed table, no value 2
    is left in the validity column of the caller's table: every flagged row
    is gone, whichever path the call takes and whether it returns or
    raises. *)
Theorem clean_data_no_flagged_row (data : DataFrame) (dim : Z)
    (vars_to_drop vars_to_keep : option (list string)) :
  wf_frame data -> dim = 2 \/ dim = 3 ->
  Forall (fun v => Qeq_bool v 2 = false)
         (column "vtkGhostType" (fst (clean_data data dim vars_to_drop vars_to_keep))).
Proof.
  intros Hwf Hdim. apply valid_dim in Hdim.
  rewrite clean_data_normal, Hdim. cbn [fst].
  now apply no_flag_after_ghost_rule.
Qed.

Lemma clean_data_no_flagged_row_witness :
  column "vtkGhostType" ghost_table = [0; 2; 0]%Q /\
  Forall (fun v => Qeq_bool v 2 = false)
         (column "vtkGhostType" (fst (clean_data ghost_table 2 (Some ["q"]) None))).
Proof.
  split; [reflexivity|].
  apply clean_data_no_flagged_row; [repeat constructor | left; reflexivity].
Defined.

(** X4. Cleaning twice is cleaning once: on a well-formed table and with a
    valid [dim], a second call on the caller's table as the first call left
    it removes no further row and has the outcome that the same call has on
    the original table. *)
Theorem clean_data_twice (data : DataFrame) (dim : Z)
    (vars_to_drop vars_to_keep vars_to_drop' vars_to_keep' : option (list string)) :
  wf_frame data -> dim = 2 \/ dim = 3 ->
  clean_data (fst (clean_data data dim vars_to_drop vars_to_keep))
             dim vars_to_drop' vars_to_keep'
  = clean_data data dim vars_to_drop' vars_to_keep'.
Proof.
  intros Hwf Hdim. apply valid_dim in Hdim.
  rewrite !clean_data_normal, Hdim. cbn [fst].
  rewrite (after_ghost_rule_idempotent Hwf).
  unfold collected, in_columns. now rewrite columns_after_ghost_rule.
Qed.

Lemma clean_data_twice_witness :
  clean_data (fst (clean_data ghost_table 2 None (Some ["p"]))) 2 (Some ["p"]) None
  = clean_data ghost_table 2 (Some ["p"]) None.
Proof.
  apply clean_data_twice; [repeat constructor | left; reflexivity].
Defined.

Lemma select_flag_in (idx : list Z) (g : list Q) (i : Z) :
  In i (select (map (fun v => Qeq_bool v 2) g) idx) <->
  exists v, In (i, v) (combine idx g) /\ Qeq_bool v 2 = true.
Proof.
  revert g. induction idx as [|a idx IH]; intros [|b g]; simpl;
    try (split; [contradiction | intros [v [[] _]]]).
  destruct (Qeq_bool b 2) eqn:Eb; simpl; rewrite IH; split.
  - intros [<-|[v [Hv Hf]]]; [exists b | exists v]; auto.
  - intros [v [[Heq|Hv] Hf]]; [inversion Heq; now left | right; now exists v].
  - intros [v [Hv Hf]]. exists v. auto.
  - intros [v [[Heq|Hv] Hf]]; [inversion Heq; congruence | now exists v].
Qed.

Lemma combine_functional (idx : list Z) (g : list Q) (i : Z) (v v' : Q) :
  NoDup idx -> In (i, v) (combine idx g) -> In (i, v') (combine idx g) -> v = v'.
Proof.
  revert g. induction idx as [|a idx IH]; intros [|b g] Hnd Hv Hv'; simpl in *;
    try contradiction.
  inversion Hnd as [|? ? Ha Hnd']; subst.
  destruct Hv as [Hv|Hv], Hv' as [Hv'|Hv'].
  - congruence.
  - inversion Hv; subst. apply in_combine_l in Hv'. contradiction.
  - inversion Hv'; subst. apply in_combine_l in Hv. contradiction.
  - now apply (IH g).
Qed.

Lemma mask_pointwise (labels : list Z) (idx : list Z) (g : list Q) :
  length g = length idx ->
  (forall i v, In (i, v) (combine idx g) ->
               existsb (Z.eqb i) labels = Qeq_bool v 2) ->
  map (fun i => negb (existsb (Z.eqb i) labels)) idx
  = map (fun v => negb (Qeq_bool v 2)) g.
Proof.
  revert g. induction idx as [|a idx IH]; intros [|b g] Hlen H; simpl in *;
    try discriminate; [reflexivity|].
  rewrite (H a b) by now left. f_equal. apply IH; [lia|].
  intros i v Hin. apply H. now right.
Qed.

Lemma drop_rows_unflagged (d : DataFrame) :
  wf_frame d -> NoDup (index d) -> in_columns "vtkGhostType" d = true ->
  drop_rows (ghost_labels d) d = unflagged_rows d.
Proof.
  intros Hwf Hnd Hg. unfold drop_rows, unflagged_rows, ghost_labels.
  assert (Hlen := ghost_column_length Hwf Hg).
  rewrite (@mask_pointwise _ (index d) (column "vtkGhostType" d) Hlen);
    [reflexivity|].
  intros i v Hin.
  destruct (Qeq_bool v 2) eqn:Ev.
  - apply existsb_exists. exists i. split; [|apply Z.eqb_refl].
    apply select_flag_in. now exists v.
  - apply not_true_iff_false. intros Hex. apply existsb_exists in Hex.
    destruct Hex as [j [Hj Hij]]. apply Z.eqb_eq in Hij. subst j.
    apply select_flag_in in Hj. destruct Hj as [v' [Hv' Hf']].
    rewrite (combine_functional _ _ _ _ Hnd Hin Hv') in Ev. congruence.
Qed.

(** X5. On a well-formed table whose row labels are distinct and which has
    a validity column, a call with a valid [dim] leaves in the caller's
    table exactly the rows whose flag is not 2, in their order and with
    their labels. *)
Theorem clean_data_keeps_unflagged (data : DataFrame) (dim : Z)
    (vars_to_drop vars_to_keep : option (list string)) :
  wf_frame data -> NoDup (index data) ->
  in_columns "vtkGhostType" data = true ->
  dim = 2 \/ dim = 3 ->
  fst (clean_data data dim vars_to_drop vars_to_keep) = unflagged_rows data.
Proof.
  intros Hwf Hnd Hg Hdim. apply valid_dim in Hdim.
  rewrite clean_data_normal, Hdim. cbn [fst].
  unfold after_ghost_rule. rewrite Hg. now apply drop_rows_unflagged.
Qed.

Lemma clean_data_keeps_unflagged_witness :
  fst (clean_data ghost_table 3 None None)
  = mkDF [0; 2]
         [("vtkGhostType", [0; 0]%Q); ("U:0", [1; 3]%Q); ("U:1", [4; 6]%Q);
          ("U:2", [7; 9]%Q); ("p", [5; 7]%Q)].
Proof.
  apply (@clean_data_keeps_unflagged ghost_table 3 None None).
  - repeat constructor.
  - repeat constructor; simpl; intuition discriminate.
  - reflexivity.
  - right; reflexivity.
Defined.

(* ------------------------------------------------------------------ *)
(** * clean_data: when the two paths return *)

Lemma drop_columns_names (names : list string) (d : DataFrame) :
  drop_columns (map Name names) d =
  if forallb (fun n => in_columns n d) names
  then Ok (mkDF (index d) (filter (fun c => negb (mem (fst c) names)) (cols d)))
  else Raise KeyError.
Proof.
  unfold drop_columns.
  assert (H : forallb (label_found d) (map Name names)
              = forallb (fun n => in_columns n d) names).
  { induction names as [|n names IH]; simpl; [reflexivity | now rewrite IH]. }
  rewrite H.
  destruct (forallb (fun n => in_columns n d) names); [|reflexivity].
  do 2 f_equal. apply filter_ext. intros [n v]. cbn [fst].
  now rewrite existsb_label_names.
Qed.

Lemma collected_names (data : DataFrame) (dim : Z) (vars_to_drop : option (list string)) :
  in_columns "Points:0" data = false ->
  collected data dim vars_to_drop = map Name (dropped_names data dim vars_to_drop).
Proof.
  intros Hp. unfold collected, dropped_names. rewrite Hp, !map_app. cbn [app].
  destruct (in_columns "vtkGhostType" data), (in_columns "U:0" data && (dim =? 2));
    reflexivity.
Qed.

(** The names the drop rules collect are all columns exactly when the
    listed names are columns and the planar rule finds its U:2. *)
Lemma dropped_names_found (data : DataFrame) (dim : Z) (vars_to_drop : option (list string)) :
  forallb (fun n => in_columns n (after_ghost_rule data))
          (dropped_names data dim vars_to_drop) = true <->
  (forall v, In v (listed vars_to_drop) -> In v (columns data)) /\
  (In "U:0" (columns data) -> dim = 2 -> In "U:2" (columns data)).
Proof.
  rewrite forallb_forall. unfold dropped_names.
  assert (Hin : forall n, in_columns n (after_ghost_rule data) = true <-> In n (columns data)).
  { intros n. rewrite in_columns_true. now rewrite columns_after_ghost_rule. }
  split.
  - intros H. split.
    + intros v Hv. apply Hin, H. rewrite !in_app_iff. auto.
    + intros HU0 Hdim. apply Hin, H. rewrite !in_app_iff. right; left.
      apply in_columns_true in HU0. rewrite HU0. subst dim. now left.
  - intros [Hvars HU2] n Hn. apply Hin. rewrite !in_app_iff in Hn.
    destruct Hn as [Hn|[Hn|Hn]].
    + destruct (in_columns "vtkGhostType" data) eqn:Eg; [|contradiction].
      destruct Hn as [<-|[]]. now apply in_columns_true.
    + destruct (in_columns "U:0" data) eqn:EU; [|contradiction].
      destruct (dim =? 2) eqn:Ed; [|contradiction].
      destruct Hn as [<-|[]]. apply HU2; [now apply in_columns_true | now apply Z.eqb_eq].
    + now apply Hvars.
Qed.

Lemma drop_path_normal (data : DataFrame) (dim : Z) (vars_to_drop : option (list string)) :
  dim = 2 \/ dim = 3 ->
  ~ In "Points:0" (columns data) ->
  clean_data data dim vars_to_drop None =
  (after_ghost_rule data,
   if forallb (fun n => in_columns n (after_ghost_rule data))
              (dropped_names data dim vars_to_drop)
   then Ok (reset_index
              (mkDF (index (after_ghost_rule data))
                    (filter (fun c => negb (mem (fst c)
                                                (dropped_names data dim vars_to_drop)))
                            (cols (after_ghost_rule data)))))
   else Raise KeyError).
Proof.
  intros Hdim Hp. apply valid_dim in Hdim. apply in_columns_false in Hp.
  rewrite clean_data_normal, Hdim, (@collected_names data dim vars_to_drop Hp),
    drop_columns_names.
  destruct (forallb _ _); reflexivity.
Qed.

(** X6. The drop path on a table without a Points:0 column, for a valid
    [dim]: the call returns exactly when every name in [vars_to_drop] is a
    column and, if the table has U:0 and [dim] is 2, it also has U:2.  It
    then returns the input's columns, in order, without the validity column,
    without U:2 in the planar case and without the listed names.  Otherwise
    it raises KeyError, after the flagged rows have been removed from the
    caller's table. *)
Theorem clean_data_drop_path (data : DataFrame) (dim : Z)
    (vars_to_drop : option (list string)) :
  dim = 2 \/ dim = 3 ->
  ~ In "Points:0" (columns data) ->
  let found :=
    (forall v, In v (listed vars_to_drop) -> In v (columns data)) /\
    (In "U:0" (columns data) -> dim = 2 -> In "U:2" (columns data)) in
  (found ->
   exists cleaned,
     snd (clean_data data dim vars_to_drop None) = Ok cleaned /\
     columns cleaned
     = filter (fun n => negb (mem n (dropped_names data dim vars_to_drop)))
              (columns data)) /\
  (~ found ->
   clean_data data dim vars_to_drop None = (after_ghost_rule data, Raise KeyError)).
Proof.
  intros Hdim Hp. cbv zeta. rewrite (@drop_path_normal data _ vars_to_drop Hdim Hp).
  rewrite <- dropped_names_found.
  destruct (forallb _ (dropped_names data dim vars_to_drop)); split.
  - intros _. eexists. split; [reflexivity|].
    unfold columns, reset_index. cbn [cols].
    rewrite (columns_filter (fun n => negb (mem n (dropped_names data dim vars_to_drop)))).
    fold (columns (after_ghost_rule data)). now rewrite columns_after_ghost_rule.
  - intros H. exfalso. now apply H.
  - discriminate.
  - reflexivity.
Qed.

Lemma clean_data_drop_path_witness :
  (exists cleaned,
     snd (clean_data ghost_table 3 (Some ["p"]) None) = Ok cleaned /\
     columns cleaned = ["U:0"; "U:1"; "U:2"]) /\
  clean_data ab_table 2 (Some ["C"]) None = (ab_table, Raise KeyError).
Proof.
  split.
  - destruct (@clean_data_drop_path ghost_table 3 (Some ["p"])) as [Hok _].
    + right; reflexivity.
    + apply in_columns_false; reflexivity.
    + apply Hok. split.
      * intros v [<-|[]]. apply in_columns_true; reflexivity.
      * intros _ Hdim. discriminate.
  - destruct (@clean_data_drop_path ab_table 2 (Some ["C"])) as [_ Hbad].
    + left; reflexivity.
    + apply in_columns_false; reflexivity.
    + apply Hbad. intros [Hvars _].
      assert (H : In "C" (columns ab_table)) by (apply Hvars; now left).
      apply in_columns_true in H. discriminate.
Defined.

(** X7. With [dim] 3 the planar rule does not run: on a table without a
    Points:0 column and with [vars_to_drop] absent or listing columns, the
    call returns the input's columns without the validity column and the
    listed names, so a column U:2 that is not listed is kept. *)
Theorem clean_data_volume (data : DataFrame) (vars_to_drop : option (list string)) :
  ~ In "Points:0" (columns data) ->
  (forall v, In v (listed vars_to_drop) -> In v (columns data)) ->
  exists cleaned,
    snd (clean_data data 3 vars_to_drop None) = Ok cleaned /\
    columns cleaned
    = filter (fun n => negb (mem n ("vtkGhostType" :: listed vars_to_drop)))
             (columns data) /\
    (In "U:2" (columns data) -> ~ In "U:2" (listed vars_to_drop) ->
     In "U:2" (columns cleaned)).
Proof.
  intros Hp Hvars.
  assert (Hdim : 3 = 2 \/ 3 = 3) by now right.
  rewrite (@drop_path_normal data _ vars_to_drop Hdim Hp).
  assert (Hfound : forallb (fun n => in_columns n (after_ghost_rule data))
                           (dropped_names data 3 vars_to_drop) = true).
  { apply dropped_names_found. split; [assumption | discriminate]. }
  rewrite Hfound. eexists. split; [reflexivity|].
  assert (Hcols :
    columns (reset_index
               (mkDF (index (after_ghost_rule data))
                     (filter (fun c => negb (mem (fst c) (dropped_names data 3 vars_to_drop)))
                             (cols (after_ghost_rule data)))))
    = filter (fun n => negb (mem n ("vtkGhostType" :: listed vars_to_drop)))
             (columns data)).
  { unfold columns, reset_index. cbn [cols].
    rewrite (columns_filter (fun n => negb (mem n (dropped_names data 3 vars_to_drop)))).
    fold (columns (after_ghost_rule data)). rewrite columns_after_ghost_rule.
    apply filter_ext_in. intros n Hn. f_equal.
    unfold dropped_names. rewrite andb_false_r. cbn [app].
    destruct (in_columns "vtkGhostType" data) eqn:Eg; [reflexivity|].
    unfold mem. cbn [existsb app].
    destruct (String.eqb n "vtkGhostType") eqn:En; [|reflexivity].
    apply String.eqb_eq in En. subst n. apply in_columns_true in Hn. congruence. }
  split; [exact Hcols|].
  intros HU2 Hnot. rewrite Hcols. apply filter_In. split; [assumption|].
  apply negb_true_iff, not_true_iff_false. intros Hm. apply mem_true in Hm.
  destruct Hm as [Hm|Hm]; [discriminate | contradiction].
Qed.

Lemma clean_data_volume_witness :
  exists cleaned,
    snd (clean_data velocity_table 3 None None) = Ok cleaned /\
    columns cleaned = ["U:0"; "U:1"; "U:2"; "p"].
Proof.
  destruct (@clean_data_volume velocity_table None) as [cleaned [Hret [Hcols _]]].
  - apply in_columns_false; reflexivity.
  - intros v [].
  - exists cleaned. split; [exact Hret | exact Hcols].
Defined.

Lemma mapM_raises {A B : Type} (f : A -> result B) (l : list A) (e0 : exn) :
  (forall x e, f x = Raise e -> e = e0) ->
  (exists x, In x l /\ forall y, f x <> Ok y) ->
  mapM f l = Raise e0.
Proof.
  intros Hexn. induction l as [|a l IH]; intros [x [Hin Hx]]; [contradiction|].
  simpl. destruct (f a) as [y|e] eqn:Ha.
  - destruct Hin as [->|Hin]; [now elim (Hx y)|].
    rewrite IH by (exists x; auto). reflexivity.
  - simpl. now rewrite (Hexn a e Ha).
Qed.

Lemma filter_name_nonempty (name : string) (cs : list (string * list Q)) :
  In name (map fst cs) <-> filter (fun c => String.eqb name (fst c)) cs <> [].
Proof.
  split.
  - intros Hin Hnil. apply in_map_iff in Hin. destruct Hin as [c [Hc Hin]].
    assert (H : In c (filter (fun c => String.eqb name (fst c)) cs)).
    { apply filter_In. split; [assumption|]. rewrite Hc. apply String.eqb_refl. }
    rewrite Hnil in H. contradiction.
  - intros Hne.
    destruct (filter (fun c => String.eqb name (fst c)) cs) as [|c rest] eqn:E;
      [congruence|].
    assert (H : In c (filter (fun c => String.eqb name (fst c)) cs))
      by (rewrite E; now left).
    apply filter_In in H. destruct H as [Hin Heq]. apply String.eqb_eq in Heq.
    apply in_map_iff. exists c. auto.
Qed.

Lemma getitem_list_found (names : list string) (d : DataFrame) :
  (forall v, In v names -> In v (columns d)) ->
  getitem_list names d
  = Ok (mkDF (index d)
             (flat_map (fun n => filter (fun c => String.eqb n (fst c)) (cols d)) names)).
Proof.
  intros Hnames. unfold getitem_list.
  assert (H : mapM (fun n =>
                match filter (fun c => String.eqb n (fst c)) (cols d) with
                | [] => Raise KeyError
                | found => Ok found
                end) names
              = Ok (map (fun n => filter (fun c => String.eqb n (fst c)) (cols d)) names)).
  { induction names as [|n names IH]; simpl; [reflexivity|].
    assert (Hn : In n (map fst (cols d))) by (apply Hnames; now left).
    apply filter_name_nonempty in Hn.
    destruct (filter (fun c => String.eqb n (fst c)) (cols d)) as [|c rest];
      [congruence|].
    simpl. rewrite IH by (intros; apply Hnames; now right). reflexivity. }
  rewrite H. simpl. now rewrite flat_map_concat_map.
Qed.

Lemma getitem_list_missing (names : list string) (d : DataFrame) :
  (exists v, In v names /\ ~ In v (columns d)) ->
  getitem_list names d = Raise KeyError.
Proof.
  intros [v [Hv Hmiss]]. unfold getitem_list.
  rewrite (@mapM_raises _ _ _ names KeyError); [reflexivity | |].
  - intros x e. destruct (filter _ (cols d)); intros H; inversion H. reflexivity.
  - exists v. split; [assumption|]. intros y.
    rewrite filter_name_absent by exact Hmiss. discriminate.
Qed.

(** X8. The keep-list path, for a valid [dim] and any table, also one with
    coordinate columns: when every listed name is a column the call returns
    a table whose column names are exactly the listed ones and whose columns
    are columns of the caller's table after the row removal; when a listed
    name is not a column the call raises KeyError, the flagged rows being
    already removed from the caller's table. *)
Theorem clean_data_keep_path (data : DataFrame) (dim : Z)
    (vars_to_drop : option (list string)) (vars_to_keep : list string) :
  dim = 2 \/ dim = 3 ->
  ((forall v, In v vars_to_keep -> In v (columns data)) ->
   exists cleaned,
     snd (clean_data data dim vars_to_drop (Some vars_to_keep)) = Ok cleaned /\
     (forall n, In n (columns cleaned) <-> In n vars_to_keep) /\
     (forall c, In c (cols cleaned) -> In c (cols (after_ghost_rule data)))) /\
  ((exists v, In v vars_to_keep /\ ~ In v (columns data)) ->
   clean_data data dim vars_to_drop (Some vars_to_keep)
   = (after_ghost_rule data, Raise KeyError)).
Proof.
  intros Hdim. apply valid_dim in Hdim. rewrite clean_data_normal, Hdim. cbn [snd].
  split.
  - intros Hkeep.
    assert (Hkeep' : forall v, In v vars_to_keep -> In v (columns (after_ghost_rule data))).
    { intros v Hv. rewrite columns_after_ghost_rule. auto. }
    rewrite (@getitem_list_found vars_to_keep _ Hkeep'). eexists. split; [reflexivity|]. split.
    + intros n. unfold columns at 1. cbn [cols]. rewrite in_map_iff. split.
      * intros [c [Hc Hin]]. apply in_flat_map in Hin. destruct Hin as [m [Hm Hin]].
        apply filter_In in Hin. destruct Hin as [_ Heq]. apply String.eqb_eq in Heq.
        congruence.
      * intros Hn. specialize (Hkeep' n Hn). apply in_map_iff in Hkeep'.
        destruct Hkeep' as [c [Hc Hin]]. exists c. split; [assumption|].
        apply in_flat_map. exists n. split; [assumption|].
        apply filter_In. split; [assumption|]. rewrite Hc. apply String.eqb_refl.
    + intros c Hin. cbn [cols] in Hin. apply in_flat_map in Hin.
      destruct Hin as [m [_ Hin]]. now apply filter_In in Hin.
  - intros [v [Hv Hmiss]]. rewrite getitem_list_missing; [reflexivity|].
    exists v. split; [assumption|]. now rewrite columns_after_ghost_rule.
Qed.

Lemma clean_data_keep_path_witness :
  (exists cleaned,
     snd (clean_data points_table 2 None (Some ["p"; "Points:0"])) = Ok cleaned /\
     cols cleaned = [("p", [5; 6; 7]%Q); ("Points:0", [0; 1; 2]%Q)]) /\
  clean_data ghost_table 2 None (Some ["q"])
  = (unflagged_rows ghost_table, Raise KeyError).
Proof.
  split.
  - destruct (@clean_data_keep_path points_table 2 None ["p"; "Points:0"])
      as [Hok _]; [left; reflexivity|].
    destruct Hok as [cleaned [Hret _]].
    + intros v [<-|[<-|[]]]; apply in_columns_true; reflexivity.
    + exists cleaned. split; [exact Hret|].
      vm_compute in Hret. now inversion Hret.
  - destruct (@clean_data_keep_path ghost_table 2 None ["q"]) as [_ Hbad];
      [left; reflexivity|].
    apply Hbad. exists "q". split; [now left|]. apply in_columns_false; reflexivity.
Defined.

(* ------------------------------------------------------------------ *)
(** * scale_data: one feature *)

Lemma set_col_names (name : string) (v : list Q) (cs : list (string * list Q)) :
  In name (map fst cs) -> map fst (set_col name v cs) = map fst cs.
Proof.
  induction cs as [|[n w] cs IH]; simpl; intros Hin; [contradiction|].
  destruct (String.eqb name n) eqn:E; simpl; [reflexivity|].
  f_equal. apply IH. destruct Hin as [->|Hin]; [|assumption].
  rewrite String.eqb_refl in E. discriminate.
Qed.

Lemma lookup_set_col_same (name : string) (v : list Q) (cs : list (string * list Q)) :
  lookup_col name (set_col name v cs) = Some v.
Proof.
  induction cs as [|[n w] cs IH]; simpl.
  - now rewrite String.eqb_refl.
  - destruct (String.eqb name n) eqn:E; simpl; rewrite E; [reflexivity | exact IH].
Qed.

Lemma lookup_set_col_other (name other : string) (v : list Q) (cs : list (string * list Q)) :
  other <> name ->
  lookup_col other (set_col name v cs) = lookup_col other cs.
Proof.
  intros Hneq. induction cs as [|[n w] cs IH]; simpl.
  - apply String.eqb_neq in Hneq. now rewrite Hneq.
  - destruct (String.eqb name n) eqn:E; simpl.
    + apply String.eqb_eq in E. subst n.
      apply String.eqb_neq in Hneq. now rewrite Hneq.
    + now rewrite IH.
Qed.

Lemma known_scaler (scaler : string) :
  mem scaler scalers = true <->
  scaler = "MinMaxScaler" \/ scaler = "StandardScaler" \/ scaler = "MaxAbsScaler".
Proof.
  rewrite mem_true. unfold scalers. simpl. intuition.
Qed.

Section ScalingOneFeature.
Context {S : Scalers}.

(** [scale_data] on a feature other than the sentinel. *)
Lemma scale_data_feature (data : DataFrame) (scaler feature : string) :
  mem scaler scalers = true ->
  in_columns feature data = true ->
  feature <> "All" ->
  scale_data data scaler feature
  = Ok (Frame (mkDF (index data)
                    (set_col feature
                       (map (fun row => nth 0 row 0%Q)
                            (fit_transform scaler
                               (map (fun v => [v]) (column feature data))))
                       (cols data)))).
Proof.
  intros Hs Hf Hall. unfold scale_data. unfold mem in Hs. rewrite Hs, Hf.
  cbn [negb]. cbv iota.
  apply String.eqb_neq in Hall. rewrite Hall.
  apply known_scaler in Hs. destruct Hs as [-> | [-> | ->]]; reflexivity.
Qed.

(** X9. Scaling one feature: for a known scaler and a column other than
    All, [scale_data] returns a table with the rows, the column names and
    the column order of the input, in which the feature holds what the
    scaler returns for the feature's values (given as a one-column array)
    and every other column holds the input's values. *)
Theorem scale_data_one_feature (data : DataFrame) (scaler feature : string) :
  mem scaler scalers = true ->
  In feature (columns data) ->
  feature <> "All" ->
  exists scaled,
    scale_data data scaler feature = Ok (Frame scaled) /\
    index scaled = index data /\
    columns scaled = columns data /\
    column feature scaled
    = map (fun row => nth 0 row 0%Q)
          (fit_transform scaler (map (fun v => [v]) (column feature data))) /\
    forall other, other <> feature -> column other scaled = column other data.
Proof.
  intros Hs Hf Hall. eexists. split.
  - apply scale_data_feature; [assumption | now apply in_columns_true | assumption].
  - cbn [index]. repeat split.
    + unfold columns. cbn [cols]. now apply set_col_names.
    + unfold column at 1. cbn [cols]. now rewrite lookup_set_col_same.
    + intros other Hother. unfold column. cbn [cols].
      now rewrite lookup_set_col_other.
Qed.

(** X10. [scale_data] returns exactly when the scaler is one of the three
    names and the feature is a column of the table; what it returns is a
    plain array when the feature is All and a table otherwise. *)
Theorem scale_data_returns_iff (data : DataFrame) (scaler feature : string) :
  (mem scaler scalers = true /\ in_columns feature data = true ->
   exists scaled, scale_data data scaler feature = Ok scaled) /\
  (forall scaled,
      scale_data data scaler feature = Ok scaled ->
      mem scaler scalers = true /\ in_columns feature data = true /\
      match scaled with
      | Matrix _ => feature = "All"
      | Frame _ => feature <> "All"
      end).
Proof.
  split.
  - intros [Hs Hf]. destruct (String.eqb feature "All") eqn:E.
    + apply String.eqb_eq in E. subst feature.
      rewrite scale_data_all_branch by assumption. eauto.
    + apply String.eqb_neq in E. rewrite scale_data_feature by assumption. eauto.
  - intros scaled H.
    destruct (mem scaler scalers) eqn:Hs;
      [|rewrite scale_data_unknown_scaler in H by assumption; discriminate].
    destruct (in_columns feature data) eqn:Hf;
      [|rewrite scale_data_unknown_feature in H by assumption; discriminate].
    repeat split. destruct (String.eqb feature "All") eqn:E.
    + apply String.eqb_eq in E. subst feature.
      rewrite scale_data_all_branch in H by assumption. now inversion H.
    + apply String.eqb_neq in E. rewrite scale_data_feature in H by assumption.
      now inversion H.
Qed.

End ScalingOneFeature.

Lemma scale_data_one_feature_witness :
  exists scaled,
    scale_data (S := no_scaling) ab_table "MaxAbsScaler" "B" = Ok (Frame scaled) /\
    columns scaled = ["A"; "B"] /\
    column "A" scaled = [1; 2]%Q.
Proof.
  destruct (@scale_data_one_feature no_scaling ab_table "MaxAbsScaler" "B")
    as [scaled [Hret [_ [Hcols [_ Hother]]]]].
  - reflexivity.
  - apply in_columns_true; reflexivity.
  - discriminate.
  - exists scaled. split; [exact Hret | split; [exact Hcols |]].
    rewrite Hother by discriminate. reflexivity.
Defined.

Lemma scale_data_returns_iff_witness :
  (exists scaled, scale_data (S := no_scaling) ab_table "MinMaxScaler" "A" = Ok scaled) /\
  mem "MinMaxScaler" scalers = true.
Proof.
  destruct (@scale_data_returns_iff no_scaling ab_table "MinMaxScaler" "A")
    as [Hret Hinv].
  assert (H : exists scaled,
             scale_data (S := no_scaling) ab_table "MinMaxScaler" "A" = Ok scaled)
    by (apply Hret; split; reflexivity).
  split; [exact H|]. destruct H as [scaled H]. exact (proj1 (Hinv scaled H)).
Defined.

(* ------------------------------------------------------------------ *)
(** * embed_data: exceptions and the order of the calls *)

Section EmbeddingErrors.
Context {S : Scalers} {R : Reducers}.

(** X11. [embed_data] hands every exception on unchanged, and stops at the
    first one.  An unsupported class is rejected before anything is done.
    For UMAP and t-SNE: an exception of the scaling step leaves the reducer
    unbuilt; an exception of the constructor comes after the one call that
    builds it; for UMAP an exception of [fit] leaves [transform] uncalled,
    and an exception of [transform] comes after exactly one [fit]; for
    t-SNE an exception of [fit_transform] comes after that one call. *)
Theorem embed_data_raises (data : DataFrame) (scale : bool)
    (scaler feature : string) (kwargs : params) (e : exn) :
  (forall name,
      embed_data data (OtherClass name) scale scaler feature kwargs
      = ([], Raise ValueError)) /\
  (forall alg,
      alg = UMAP \/ alg = TSNE ->
      prepared data scale scaler feature = Raise e ->
      embed_data data alg scale scaler feature kwargs = ([], Raise e)) /\
  (forall alg input,
      alg = UMAP \/ alg = TSNE ->
      prepared data scale scaler feature = Ok input ->
      construct alg kwargs = Raise e ->
      embed_data data alg scale scaler feature kwargs = ([Construct alg], Raise e)) /\
  (forall input reducer,
      prepared data scale scaler feature = Ok input ->
      construct UMAP kwargs = Ok reducer ->
      fit reducer input = Raise e ->
      embed_data data UMAP scale scaler feature kwargs
      = ([Construct UMAP; Fit input], Raise e)) /\
  (forall input reducer mapper,
      prepared data scale scaler feature = Ok input ->
      construct UMAP kwargs = Ok reducer ->
      fit reducer input = Ok mapper ->
      transform mapper input = Raise e ->
      embed_data data UMAP scale scaler feature kwargs
      = ([Construct UMAP; Fit input; Transform input], Raise e)) /\
  (forall input reducer,
      prepared data scale scaler feature = Ok input ->
      construct TSNE kwargs = Ok reducer ->
      fit_and_transform reducer input = Raise e ->
      embed_data data TSNE scale scaler feature kwargs
      = ([Construct TSNE; FitTransform input], Raise e)).
Proof.
  repeat split.
  - intros alg [-> | ->] Hp.
    + rewrite embed_data_umap, Hp. reflexivity.
    + rewrite embed_data_tsne, Hp. reflexivity.
  - intros alg input [-> | ->] Hp Hc.
    + rewrite embed_data_umap, Hp. unfold lift, logged, tbind. now rewrite Hc.
    + rewrite embed_data_tsne, Hp. unfold lift, logged, tbind. now rewrite Hc.
  - intros input reducer Hp Hc Hf.
    rewrite embed_data_umap, Hp. unfold lift, logged, tbind. now rewrite Hc, Hf.
  - intros input reducer mapper Hp Hc Hf Ht.
    rewrite embed_data_umap, Hp. unfold lift, logged, tbind. now rewrite Hc, Hf, Ht.
  - intros input reducer Hp Hc Hf.
    rewrite embed_data_tsne, Hp. unfold lift, logged, tbind. now rewrite Hc, Hf.
Qed.

(** X12. With [scale] set and the feature All, which are the defaults,
    [embed_data] on a table without a column called All raises the argument
    error of [scale_data] for both supported algorithms, and the reducer is
    never built. *)
Theorem embed_data_default_scaling (data : DataFrame) (alg : algorithm)
    (scaler : string) (kwargs : params) :
  alg = UMAP \/ alg = TSNE ->
  ~ In "All" (columns data) ->
  embed_data data alg true scaler "All" kwargs = ([], Raise ValueError).
Proof.
  intros Halg Hall.
  assert (Hp : prepared data true scaler "All" = Raise ValueError).
  { unfold prepared. apply scale_data_unknown_feature. now apply in_columns_false. }
  destruct Halg as [-> | ->].
  - rewrite embed_data_umap, Hp. reflexivity.
  - rewrite embed_data_tsne, Hp. reflexivity.
Qed.

End EmbeddingErrors.

Lemma embed_data_raises_witness :
  embed_data (S := no_scaling) (R := counting_reducers)
             ab_table TSNE true "NoScaler" "A" tt = ([], Raise ValueError).
Proof.
  destruct (@embed_data_raises no_scaling counting_reducers
              ab_table true "NoScaler" "A" tt ValueError) as [_ [Hprep _]].
  apply Hprep; [right; reflexivity | reflexivity].
Defined.

Lemma embed_data_default_scaling_witness :
  embed_data (S := no_scaling) (R := counting_reducers)
             ab_table UMAP true "StandardScaler" "All" tt = ([], Raise ValueError).
Proof.
  apply embed_data_default_scaling; [left; reflexivity|].
  apply in_columns_false; reflexivity.
Defined.

(* ------------------------------------------------------------------ *)
(** * import_vtk_data: any mesh of scalars and vectors *)

Lemma lookup_array_nodup (arrs : list (string * array)) (n : string) (a : array) :
  NoDup (map fst arrs) -> In (n, a) arrs -> lookup_array n arrs = Some a.
Proof.
  induction arrs as [|[m b] arrs IH]; simpl; intros Hnd Hin; [contradiction|].
  inversion Hnd as [|? ? Hm Hnd']; subst.
  destruct Hin as [Heq|Hin].
  - inversion Heq; subst. now rewrite String.eqb_refl.
  - destruct (String.eqb n m) eqn:E; [|now apply IH].
    apply String.eqb_eq in E. subst m. exfalso. apply Hm.
    apply in_map_iff. now exists (n, a).
Qed.

Lemma filter_names (P : string -> bool) (Q' : string * array -> bool)
    (arrs : list (string * array)) :
  (forall e, In e arrs -> P (fst e) = Q' e) ->
  filter P (map fst arrs) = map fst (filter Q' arrs).
Proof.
  induction arrs as [|e arrs IH]; simpl; intros H; [reflexivity|].
  rewrite (H e) by now left. rewrite IH by (intros; apply H; now right).
  destruct (Q' e); reflexivity.
Qed.

Lemma sampled_size (N : nat) (e : string * array) :
  (1 <= N)%nat -> sampled N (snd e) ->
  negb (size (snd e) =? N)%nat = is_vector e.
Proof.
  intros HN. unfold is_vector, sampled. destruct (snd e) as [v|d rows]; simpl.
  - intros ->. now rewrite Nat.eqb_refl.
  - intros [Hlen Hd]. apply negb_true_iff, Nat.eqb_neq. nia.
Qed.

Lemma scalar_columns_names (arrs : list (string * array)) :
  map fst (scalar_columns arrs) = map fst (filter (fun e => negb (is_vector e)) arrs).
Proof.
  unfold scalar_columns, is_vector.
  induction arrs as [|[n a] arrs IH]; simpl; [reflexivity|].
  destruct a; simpl; now rewrite IH.
Qed.

Lemma set_col_fresh (name : string) (v : list Q) (cs : list (string * list Q)) :
  ~ In name (map fst cs) -> set_col name v cs = cs ++ [(name, v)].
Proof.
  induction cs as [|[n w] cs IH]; simpl; intros Hn; [reflexivity|].
  destruct (String.eqb name n) eqn:E.
  - apply String.eqb_eq in E. subst. exfalso. auto.
  - f_equal. apply IH. auto.
Qed.

(** Assigning a block of fresh, distinct names appends one column per
    name. *)
Lemma fold_set_col_fresh (rows : list (list Q)) (names : list string) :
  forall (start : nat) (cs : list (string * list Q)),
    NoDup (map fst cs ++ names) ->
    fold_left (fun cs '(k, name) => set_col name (map (fun row => nth k row 0%Q) rows) cs)
              (combine (seq start (length names)) names) cs
    = cs ++ map (fun '(k, name) => (name, component k rows))
                (combine (seq start (length names)) names).
Proof.
  induction names as [|name names IH]; intros start cs Hnd; simpl.
  - now rewrite app_nil_r.
  - assert (Hfresh : ~ In name (map fst cs)).
    { apply NoDup_remove_2 in Hnd. intros Hin. apply Hnd. apply in_or_app. now left. }
    rewrite set_col_fresh by assumption.
    rewrite IH.
    + rewrite <- app_assoc. reflexivity.
    + rewrite map_app, <- app_assoc. simpl. exact Hnd.
Qed.

Lemma combine_seq_map {A : Type} (f : nat -> A) (g : nat -> string)
    (start len : nat) :
  map (fun '(k, name) => (name, f k))
      (combine (seq start (length (map g (seq start len)))) (map g (seq start len)))
  = map (fun k => (g k, f k)) (seq start len).
Proof.
  rewrite length_map, length_seq.
  revert start. induction len as [|len IH]; intros start; simpl; [reflexivity|].
  now rewrite IH.
Qed.

Lemma entry_unique (arrs : list (string * array)) (e e' : string * array) :
  NoDup (map fst arrs) -> In e arrs -> In e' arrs -> fst e = fst e' -> e = e'.
Proof.
  intros Hnd He He' Hfst. destruct e as [n a], e' as [n' a']. simpl in Hfst. subst n'.
  assert (H := lookup_array_nodup _ _ _ Hnd He).
  rewrite (lookup_array_nodup _ _ _ Hnd He') in H. congruence.
Qed.

Section FlatteningAnyMesh.
Context {F : MeshFilters}.
Variables (N cells : nat) (arrs : list (string * array)).
Hypothesis samples : (1 <= N)%nat.
Hypothesis names_distinct : NoDup (map fst arrs).
Hypothesis arrays_sampled : forall e, In e arrs -> sampled N (snd e).

Let mesh : Mesh := mkMesh N cells arrs.

Lemma get_array_entry (e : string * array) :
  In e arrs -> get_array (fst e) mesh = Ok (snd e).
Proof.
  intros He. destruct e as [n a]. unfold get_array, mesh. cbn [arrays fst snd].
  now rewrite (lookup_array_nodup _ _ _ names_distinct He).
Qed.

Lemma vector_names_of_mesh :
  filter (fun var_name =>
            match get_array var_name mesh with
            | Ok a => negb (size a =? n_points mesh)%nat
            | Raise _ => false
            end) (array_names mesh)
  = map fst (filter is_vector arrs).
Proof.
  unfold array_names. cbn [arrays mesh n_points]. apply filter_names.
  intros e He. rewrite (get_array_entry _ He).
  apply sampled_size; [exact samples | now apply arrays_sampled].
Qed.

Lemma var_names_of_mesh :
  filter (fun name => negb (existsb (String.eqb name) (map fst (filter is_vector arrs))))
         (array_names mesh)
  = map fst (filter (fun e => negb (is_vector e)) arrs).
Proof.
  unfold array_names. cbn [arrays mesh]. apply filter_names.
  intros e He. f_equal. destruct (is_vector e) eqn:Ev.
  - apply existsb_exists. exists (fst e). split; [|apply String.eqb_refl].
    apply in_map. apply filter_In. now split.
  - apply not_true_iff_false. intros Hex. apply existsb_exists in Hex.
    destruct Hex as [n [Hn Heq]]. apply String.eqb_eq in Heq. subst n.
    apply in_map_iff in Hn. destruct Hn as [e' [Hfst He']].
    apply filter_In in He'. destruct He' as [He' Hv'].
    rewrite (entry_unique _ _ _ names_distinct He' He Hfst) in Hv'. congruence.
Qed.

Lemma get_arrays_entries (l : list (string * array)) :
  (forall e, In e l -> In e arrs) ->
  mapM (fun var_name => get_array var_name mesh) (map fst l) = Ok (map snd l).
Proof.
  induction l as [|e l IH]; intros Hl; simpl; [reflexivity|].
  rewrite get_array_entry by (apply Hl; now left).
  simpl. rewrite IH by (intros; apply Hl; now right). reflexivity.
Qed.

Lemma flat_map_filter {A B : Type} (f : A -> list B) (P : A -> bool) (l : list A) :
  (forall x, P x = false -> f x = []) ->
  flat_map f (filter P l) = flat_map f l.
Proof.
  intros H. induction l as [|x l IH]; [reflexivity|].
  cbn [filter flat_map]. destruct (P x) eqn:E.
  - cbn [flat_map]. now rewrite IH.
  - now rewrite (H x E), IH.
Qed.

Lemma scalar_columns_filter (l : list (string * array)) :
  scalar_columns (filter (fun e => negb (is_vector e)) l) = scalar_columns l.
Proof.
  unfold scalar_columns. apply flat_map_filter.
  intros [n a]. unfold is_vector. cbn [snd]. destruct a; [discriminate | reflexivity].
Qed.

Lemma vector_columns_filter (l : list (string * array)) :
  vector_columns (filter is_vector l) = vector_columns l.
Proof.
  unfold vector_columns. apply flat_map_filter.
  intros [n a]. unfold is_vector. cbn [snd]. destruct a; [reflexivity | discriminate].
Qed.

Lemma check_scalars (n0 : nat) (l : list (string * array)) :
  (forall e, In e l -> is_vector e = false /\ sampled n0 (snd e)) ->
  mapM (fun a =>
          match a with
          | Arr1 v => if (length v =? n0)%nat then Ok v else Raise ValueError
          | Arr2 _ _ => Raise ValueError
          end) (map snd l)
  = Ok (map snd (scalar_columns l)) /\
  combine (map fst l) (map snd (scalar_columns l)) = scalar_columns l.
Proof.
  induction l as [|[n a] l IH]; intros Hl; simpl; [split; reflexivity|].
  destruct (Hl (n, a)) as [Hv Hs]; [now left|].
  unfold is_vector in Hv. simpl in Hv, Hs. destruct a as [v|d rows]; [|discriminate].
  simpl in Hs. subst n0. rewrite Nat.eqb_refl. simpl.
  destruct IH as [IH1 IH2]; [intros; apply Hl; now right|].
  unfold scalar_columns in *. simpl. rewrite IH1. simpl. split; [reflexivity|].
  now rewrite IH2.
Qed.

Lemma frame_of_scalars (l : list (string * array)) :
  scalar_columns l <> [] ->
  (forall e, In e l -> is_vector e = false /\ sampled N (snd e)) ->
  frame_of_arrays (map snd l) (map fst l)
  = Ok (mkDF (map Z.of_nat (seq 0 N)) (scalar_columns l)).
Proof.
  intros Hne Hl. destruct (@check_scalars N l Hl) as [Hcheck Hcomb].
  unfold frame_of_arrays. destruct l as [|[n a] l]; [now elim Hne|].
  destruct (Hl (n, a)) as [Hv Hs]; [now left|].
  unfold is_vector in Hv. simpl in Hv, Hs. destruct a as [v|d rows]; [|discriminate].
  simpl in Hs. cbn [map snd fst] in Hcheck, Hcomb |- *.
  rewrite Hs.
  rewrite Hcheck. cbn [bind]. now rewrite Hcomb.
Qed.

Lemma add_vectors (l : list (string * array)) :
  (forall e, In e l -> In e arrs /\ is_vector e = true) ->
  forall cs,
    NoDup (map fst cs ++ map fst (vector_columns l)) ->
    foldM (add_vector mesh) (map fst l) (mkDF (map Z.of_nat (seq 0 N)) cs)
    = Ok (mkDF (map Z.of_nat (seq 0 N)) (cs ++ vector_columns l)).
Proof.
  induction l as [|[n a] l IH]; intros Hl cs Hnd; cbn [map fst foldM].
  - unfold vector_columns. cbn [flat_map]. now rewrite app_nil_r.
  - destruct (Hl (n, a)) as [Hin Hv]; [now left|].
    assert (Hget := get_array_entry _ Hin). cbn [fst snd] in Hget.
    unfold add_vector at 1. rewrite Hget. cbn [bind].
    unfold is_vector in Hv. simpl in Hv. destruct a as [v|d rows]; [discriminate|].
    assert (Hs := arrays_sampled _ Hin). simpl in Hs. destruct Hs as [Hrows _].
    unfold setitem_list. cbn [index].
    rewrite length_map, length_seq, Hrows, Nat.eqb_refl.
    unfold vector_columns in *. cbn [flat_map fst snd] in *.
    rewrite map_app, app_assoc in Hnd.
    rewrite fold_set_col_fresh.
    + rewrite (combine_seq_map (fun k => component k rows)
                               (fun i => (n ++ ":" ++ str i)%string) 0 d).
      cbn [bind]. rewrite IH.
      * now rewrite <- app_assoc.
      * intros e He. apply Hl. now right.
      * rewrite map_app, map_map. cbn [fst]. rewrite map_map in Hnd. exact Hnd.
    + apply NoDup_app_remove_r in Hnd. rewrite map_map in Hnd. exact Hnd.
Qed.

(** X13. Flattening any mesh of scalars and vectors.  Let the mesh have
    [N >= 1] points and arrays of distinct names, none called vtkGhostType,
    each either one-dimensional with [N] values or two-dimensional with [N]
    rows of at least two components, with at least one scalar, and let the
    column names to be made be distinct.  Then [import_vtk_data] returns the
    mesh itself and a table with the rows 0 .. N-1 whose columns are the
    scalars, in the order of the mesh, followed by the components
    name:0, name:1, ... of each vector, in the order of the mesh and of the
    components. *)
Theorem import_vtk_data_flattens :
  ~ In "vtkGhostType" (map fst arrs) ->
  scalar_columns arrs <> [] ->
  NoDup (map fst (scalar_columns arrs ++ vector_columns arrs)) ->
  import_vtk_data mesh
  = Ok (mkDF (map Z.of_nat (seq 0 N)) (scalar_columns arrs ++ vector_columns arrs),
        mesh).
Proof.
  intros Hghost Hscalar Hnd. unfold import_vtk_data.
  assert (Hno : existsb (String.eqb "vtkGhostType") (array_names mesh) = false).
  { apply not_true_iff_false. intros Hex. apply existsb_exists in Hex.
    destruct Hex as [n [Hn Heq]]. apply String.eqb_eq in Heq. now subst n. }
  rewrite Hno. cbv zeta.
  rewrite vector_names_of_mesh, var_names_of_mesh.
  rewrite get_arrays_entries by (intros e He; now apply filter_In in He).
  cbn [bind].
  rewrite frame_of_scalars.
  - cbn [bind]. rewrite scalar_columns_filter.
    rewrite add_vectors.
    + cbn [bind]. now rewrite vector_columns_filter.
    + intros e He. now apply filter_In in He.
    + rewrite vector_columns_filter. now rewrite map_app in Hnd.
  - now rewrite scalar_columns_filter.
  - intros e He. apply filter_In in He. destruct He as [He Hv].
    split; [now apply negb_true_iff | now apply arrays_sampled].
Qed.

End FlatteningAnyMesh.

Lemma import_vtk_data_flattens_witness :
  import_vtk_data (F := keep_all) field_mesh
  = Ok (mkDF [0; 1]
             [("T", [7; 8]%Q); ("U:0", [1; 3]%Q); ("U:1", [2; 4]%Q);
              ("B:0", [0; 1]%Q); ("B:1", [1; 0]%Q); ("B:2", [0; 0]%Q)],
        field_mesh).
Proof.
  apply (@import_vtk_data_flattens keep_all 2 1 (arrays field_mesh)).
  - lia.
  - repeat constructor; simpl; intuition discriminate.
  - intros e He. simpl in He. decompose [or] He; subst; simpl; auto; contradiction.
  - simpl. intuition discriminate.
  - discriminate.
  - repeat constructor; simpl; intuition discriminate.
Defined.

(* ------------------------------------------------------------------ *)
(** * The colorizer: bounds *)



Lemma palette_choice {D : Drawing} (labels : list Z) :
  (if existsb (Z.eqb (-1)) (unique labels)
   then color_palette (length (unique labels) - 1)%nat
   else color_palette (length (unique labels)))
  = color_palette (palette_size labels).
Proof.
  unfold palette_size. now destruct (existsb (Z.eqb (-1)) (unique labels)).
Qed.

Section ColorizerBounds.
Context {D : Drawing}.
Hypothesis palette_length : forall n, length (color_palette n) = n.
Hypothesis desaturate_accepts :
  forall c p, (0 <= p)%Q -> (p <= 1)%Q -> exists c', desaturate c p = Ok c'.

(** X14. A hard label beyond the palette stops the colorizer: when some
    label is at least the number of palette entries (the number of distinct
    labels, noise not counted), as happens when the labels are not the
    consecutive numbers 0, 1, ..., the call with [soft] false raises
    IndexError. *)
Theorem hard_colors_out_of_palette (c : clusterer) :
  (exists x, In x (labels_ c) /\ Z.of_nat (palette_size (labels_ c)) <= x) ->
  _set_cluster_member_colors c false = Raise IndexError.
Proof.
  intros [x [Hin Hx]]. unfold _set_cluster_member_colors.
  rewrite palette_choice.
  rewrite (@mapM_raises _ _ _ (labels_ c) IndexError); [reflexivity | |].
  - intros y e. destruct (0 <=? y); [|discriminate].
    unfold getitem. destruct (nth_error _ _); intros H; inversion H. reflexivity.
  - exists x. split; [assumption|]. intros y.
    assert (H0 : (0 <=? x) = true) by (apply Z.leb_le; lia).
    rewrite H0. unfold getitem.
    destruct (nth_error (color_palette (palette_size (labels_ c))) (Z.to_nat x)) eqn:E;
      [|discriminate].
    assert (Hsome : nth_error (color_palette (palette_size (labels_ c))) (Z.to_nat x)
                    <> None) by congruence.
    apply nth_error_Some in Hsome. rewrite palette_length in Hsome. lia.
Qed.


End ColorizerBounds.

(** X15. The colorizer pairs colours and confidences with [zip]: whenever it
    returns, the palette is the one of the distinct labels without noise,
    and there are as many colours as the shorter of the two lists allows
    (the labels, or with [soft] the membership vectors, and the
    confidences); a point beyond the shorter list gets no colour and no
    exception is raised for it. *)
Theorem member_colors_length {D : Drawing} (c : clusterer) (soft : bool)
    (colors palette : list color) :
  _set_cluster_member_colors c soft = Ok (colors, palette) ->
  palette = color_palette (palette_size (labels_ c)) /\
  length colors
  = Nat.min (if soft then length (all_points_membership_vectors c)
             else length (labels_ c))
            (length (probabilities_ c)).
Proof.
  unfold _set_cluster_member_colors. rewrite palette_choice.
  intros H.
  match type of H with
  | bind ?m _ = _ => destruct m as [cluster_colors|] eqn:Hcc; [|discriminate]
  end.
  cbn [bind] in H.
  destruct (mapM (fun '(x, p) => desaturate x p)
                 (combine cluster_colors (probabilities_ c))) as [shown|] eqn:Hcol;
    [|discriminate].
  cbn [bind] in H. inversion H; subst. split; [reflexivity|].
  destruct (mapM_ok_inv _ _ Hcol) as [Hlen _]. rewrite Hlen, length_combine.
  f_equal. destruct soft; destruct (mapM_ok_inv _ _ Hcc) as [Hlen' _]; exact Hlen'.
Qed.

Lemma hard_colors_out_of_palette_witness :
  palette_size (labels_ gap_clusterer) = 2%nat /\
  _set_cluster_member_colors (D := sample_drawing) gap_clusterer false = Raise IndexError.
Proof.
  split; [reflexivity|].
  apply (@hard_colors_out_of_palette sample_drawing sample_palette_length).
  exists 2. split; [right; now left | discriminate].
Defined.

Lemma member_colors_length_witness :
  length (labels_ short_clusterer) = 3%nat /\
  length [(0 # 2, 1 # 2, 1 # 3); (1 # 2, 1 # 2, 1 # 3)]%Q = 2%nat.
Proof.
  split; [reflexivity|].
  apply (@member_colors_length sample_drawing short_clusterer false
           [(0 # 2, 1 # 2, 1 # 3); (1 # 2, 1 # 2, 1 # 3)]%Q
           [(0 # 2, 1 # 2, 1 # 3); (1 # 2, 1 # 2, 1 # 3)]%Q).
  reflexivity.
Defined.


(* ------------------------------------------------------------------ *)
(** * np.unique *)

Lemma insert_unique_in (x y : Z) (l : list Z) :
  In y (insert_unique x l) <-> y = x \/ In y l.
Proof.
  induction l as [|z l IH]; simpl; [intuition|].
  destruct (x <? z); [simpl; intuition|].
  destruct (x =? z) eqn:E.
  - apply Z.eqb_eq in E. subst z. simpl. intuition.
  - simpl. rewrite IH. intuition.
Qed.

Lemma np_unique_in (x : Z) (labels : list Z) :
  In x (np_unique labels) <-> In x labels.
Proof.
  induction labels as [|y labels IH]; simpl; [reflexivity|].
  rewrite insert_unique_in, IH. intuition.
Qed.

Lemma insert_unique_sorted (x : Z) (l : list Z) :
  StronglySorted Z.lt l -> StronglySorted Z.lt (insert_unique x l).
Proof.
  induction l as [|z l IH]; intros Hs; simpl.
  - repeat constructor.
  - inversion Hs as [|? ? Hl Hz]; subst.
    destruct (x <? z) eqn:Elt.
    + apply Z.ltb_lt in Elt. constructor; [assumption|].
      constructor; [assumption|].
      rewrite Forall_forall in *. intros y Hy. specialize (Hz y Hy). lia.
    + destruct (x =? z) eqn:Eeq; [assumption|].
      apply Z.ltb_ge in Elt. apply Z.eqb_neq in Eeq.
      constructor; [now apply IH|].
      rewrite Forall_forall in *. intros y Hy. apply insert_unique_in in Hy.
      destruct Hy as [->|Hy]; [lia | now apply Hz].
Qed.

Lemma np_unique_sorted (labels : list Z) : StronglySorted Z.lt (np_unique labels).
Proof.
  induction labels as [|y labels IH]; simpl; [constructor|].
  now apply insert_unique_sorted.
Qed.

(** Two increasing lists with the same members are the same list. *)
Lemma sorted_same_members (l l' : list Z) :
  StronglySorted Z.lt l -> StronglySorted Z.lt l' ->
  (forall x, In x l <-> In x l') -> l = l'.
Proof.
  revert l'. induction l as [|a l IH]; intros [|b l'] Hs Hs' Hmem.
  - reflexivity.
  - exfalso. apply (Hmem b). now left.
  - exfalso. apply (Hmem a). now left.
  - inversion Hs as [|? ? Hl Ha]; inversion Hs' as [|? ? Hl' Hb]; subst.
    rewrite Forall_forall in Ha, Hb.
    assert (Hab : a = b).
    { destruct (proj1 (Hmem a) (or_introl eq_refl)) as [Hba|Hin]; [now symmetry|].
      destruct (proj2 (Hmem b) (or_introl eq_refl)) as [Hab|Hin']; [assumption|].
      specialize (Ha b Hin'). specialize (Hb a Hin). lia. }
    subst b. f_equal. apply IH; try assumption.
    intros x. split; intros Hx.
    + destruct (proj1 (Hmem x) (or_intror Hx)) as [Heq|Hin]; [|assumption].
      subst x. specialize (Ha a Hx). lia.
    + destruct (proj2 (Hmem x) (or_intror Hx)) as [Heq|Hin]; [|assumption].
      subst x. specialize (Hb a Hx). lia.
Qed.

Lemma sorted_nodup (l : list Z) : StronglySorted Z.lt l -> NoDup l.
Proof.
  induction 1 as [|a l Hs IH Ha]; constructor; [|assumption].
  intros Hin. rewrite Forall_forall in Ha. specialize (Ha a Hin). lia.
Qed.

(** [np_unique] and the colorizer's [unique] count the same labels. *)
Lemma np_unique_length (labels : list Z) :
  length (np_unique labels) = length (unique labels).
Proof.
  unfold unique. apply Nat.le_antisymm; apply NoDup_incl_length.
  - apply sorted_nodup, np_unique_sorted.
  - intros x Hx. apply nodup_In. exact (proj1 (np_unique_in x labels) Hx).
  - apply NoDup_nodup.
  - intros x Hx. apply np_unique_in. exact (proj1 (nodup_In Z.eq_dec labels x) Hx).
Qed.

Lemma seq_labels_sorted (k start : nat) :
  StronglySorted Z.lt (map Z.of_nat (seq start k)).
Proof.
  revert start. induction k as [|k IH]; intros start; simpl; constructor.
  - apply IH.
  - apply Forall_forall. intros x Hx. apply in_map_iff in Hx.
    destruct Hx as [j [<- Hj]]. apply in_seq in Hj. lia.
Qed.

(** The distinct labels of [k] clusters, in order. *)
Lemma np_unique_label_domain (k : nat) (labels : list Z) :
  label_domain k labels ->
  np_unique labels
  = (if existsb (Z.eqb (-1)) (np_unique labels) then [-1] else [])
      ++ map Z.of_nat (seq 0 k).
Proof.
  intros [Hrange Hall].
  assert (Hin_seq : forall x, In x (map Z.of_nat (seq 0 k)) <-> 0 <= x < Z.of_nat k).
  { intros x. rewrite in_map_iff. split.
    - intros [j [<- Hj]]. apply in_seq in Hj. lia.
    - intros Hx. exists (Z.to_nat x). split; [lia | apply in_seq; lia]. }
  apply sorted_same_members; [apply np_unique_sorted | |].
  - destruct (existsb (Z.eqb (-1)) (np_unique labels)); cbn [app];
      [|apply seq_labels_sorted].
    constructor; [apply seq_labels_sorted|].
    apply Forall_forall. intros x Hx. apply Hin_seq in Hx. lia.
  - intros x. rewrite np_unique_in.
    destruct (existsb (Z.eqb (-1)) (np_unique labels)) eqn:E; cbn [app].
    + apply existsb_exists in E. destruct E as [y [Hy Hy']].
      apply Z.eqb_eq in Hy'. subst y. apply (proj1 (np_unique_in _ _)) in Hy.
      split.
      * intros Hx. specialize (Hrange x Hx).
        destruct (Z.eq_dec x (-1)) as [->|Hne]; [now left | right].
        apply Hin_seq. lia.
      * intros [<-|Hx]; [assumption|].
        apply Hin_seq in Hx. replace x with (Z.of_nat (Z.to_nat x)) by lia.
        apply Hall. lia.
    + assert (Hneg : ~ In (-1) labels).
      { intros Hin. apply (proj2 (np_unique_in _ _)) in Hin.
        assert (existsb (Z.eqb (-1)) (np_unique labels) = true)
          by (apply existsb_exists; exists (-1); split; [assumption | reflexivity]).
        congruence. }
      split.
      * intros Hx. specialize (Hrange x Hx). apply Hin_seq.
        destruct (Z.eq_dec x (-1)) as [->|Hne]; [contradiction | lia].
      * intros Hx. apply Hin_seq in Hx.
        replace x with (Z.of_nat (Z.to_nat x)) by lia. apply Hall. lia.
Qed.

(* ------------------------------------------------------------------ *)
(** * Legends *)

Lemma legend_by_position (labels : list Z) :
  forall (before cs : list color),
    (length labels <= length cs)%nat ->
    mapM (fun '(i, unique_label) =>
            facecolor <- getitem (before ++ cs) i ;;
            Ok (facecolor, unique_label))
         (combine (seq (length before) (length labels)) labels)
    = Ok (combine cs labels).
Proof.
  induction labels as [|l labels IH]; intros before cs Hlen.
  - destruct cs; reflexivity.
  - destruct cs as [|c cs]; [simpl in Hlen; lia|].
    cbn [length seq combine mapM]. unfold getitem at 1.
    rewrite nth_error_app2, Nat.sub_diag by lia. cbn [nth_error bind].
    specialize (IH (before ++ [c]) cs).
    rewrite length_app, Nat.add_1_r, <- app_assoc in IH. cbn [app] in IH.
    rewrite IH by (simpl in Hlen; lia). reflexivity.
Qed.

Lemma set_legend_enough (labels : list Z) (cs : list color) :
  (length (np_unique labels) <= length cs)%nat ->
  _set_legend labels cs = Ok (combine cs (np_unique labels)).
Proof.
  intros Hlen. unfold _set_legend.
  exact (@legend_by_position (np_unique labels) [] cs Hlen).
Qed.

Lemma combine_palette_labels (pal : list color) :
  forall (start n : nat) (col : color) (x : Z),
    In (col, x) (combine pal (map Z.of_nat (seq start n))) ->
    exists j, x = Z.of_nat (start + j) /\ nth_error pal j = Some col.
Proof.
  induction pal as [|c pal IH]; intros start [|n] col x Hin; simpl in Hin;
    try contradiction.
  destruct Hin as [Heq|Hin].
  - inversion Heq; subst. exists 0%nat. split; [f_equal; lia | reflexivity].
  - destruct (IH (S start) n col x Hin) as [j [Hx Hj]].
    exists (S j). split; [rewrite Hx; f_equal; lia | exact Hj].
Qed.

Lemma map_snd_combine {A B : Type} (l : list A) (l' : list B) :
  (length l' <= length l)%nat -> map snd (combine l l') = l'.
Proof.
  revert l'. induction l as [|a l IH]; intros [|b l'] H; simpl in *;
    try reflexivity; [lia|]. f_equal. apply IH. lia.
Qed.

Section Legends.
Context {D : Drawing}.
Hypothesis palette_length : forall n, length (color_palette n) = n.

(** X17. [plot_clustering] never fails on its legend and switches at fixed
    counts.  With [n] the number of distinct labels, noise included: the
    warning is given exactly when [n > 30]; for [n <= 12] there is a legend
    and no colour bar, and the legend pairs the i-th smallest label with the
    i-th colour of the colour map; for [n > 12] there is a colour bar with
    the ticks 0 .. n-1 and no legend, so a warned plot never has a legend;
    the colour map has [n] colours and its norm the [n + 1] boundaries
    -0.5, 0.5, ..., n - 0.5. *)
Theorem plot_clustering_views (embedding : matrix) (cluster_labels : list Z)
    (scale_points : bool) :
  let n := length (np_unique cluster_labels) in
  exists fig,
    plot_clustering embedding cluster_labels scale_points = Ok fig /\
    warned fig = (30 <? n)%nat /\
    scatter_cmap fig = color_palette n /\
    length (scatter_norm fig) = S n /\
    ((n <= 12)%nat ->
     legend_patches fig = Some (combine (color_palette n) (np_unique cluster_labels)) /\
     colorbar_ticks fig = None /\ warned fig = false) /\
    ((12 < n)%nat ->
     legend_patches fig = None /\
     colorbar_ticks fig = Some (map Z.of_nat (seq 0 n))).
Proof.
  cbv zeta. unfold plot_clustering, _set_colors.
  assert (Hnorm : forall n : nat,
             length (map (fun i => inject_Z (Z.of_nat i) - (1 # 2))%Q (seq 0 (S n))) = S n)
    by (intros n; now rewrite length_map, length_seq).
  destruct (length (np_unique cluster_labels) <=? 12)%nat eqn:E.
  - rewrite set_legend_enough by (rewrite palette_length; lia). cbn [bind].
    eexists. split; [reflexivity|].
    cbn [warned scatter_cmap scatter_norm legend_patches colorbar_ticks].
    apply Nat.leb_le in E.
    split; [reflexivity | split; [reflexivity | split; [apply Hnorm | split]]].
    + intros _. split; [reflexivity | split; [reflexivity|]].
      apply Nat.ltb_ge. lia.
    + intros Hgt. lia.
  - eexists. split; [reflexivity|].
    cbn [warned scatter_cmap scatter_norm legend_patches colorbar_ticks].
    apply Nat.leb_gt in E.
    split; [reflexivity | split; [reflexivity | split; [apply Hnorm | split]]].
    + intros Hle. lia.
    + intros _. split; reflexivity.
Qed.

(** X18. The legend of [plot_cluster_membership] shows the colours of the
    hard labels.  For the labels of [k] clusters, whenever the colorizer
    returns its colours and palette, the plot with a legend is drawn with
    those colours, and its legend lists the distinct labels in increasing
    order, each with the colour that the colorizer gives a point of that
    label before desaturation: gray for the noise label, the palette entry
    of the label otherwise. *)
Theorem membership_legend (embedding : matrix) (c : clusterer) (k : nat)
    (scale_points soft : bool) (colors palette : list color) :
  label_domain k (labels_ c) ->
  _set_cluster_member_colors c soft = Ok (colors, palette) ->
  exists patches,
    plot_cluster_membership embedding c scale_points true soft
    = Ok (mkMembershipPlot
            (if scale_points then Scaled 5 (length embedding) else FixedSize 20)
            colors (Some patches)) /\
    map snd patches = np_unique (labels_ c) /\
    forall col x, In (col, x) patches -> hard_color palette x = Ok col.
Proof.
  intros Hdom Hret.
  assert (Hpal : palette = color_palette k).
  { unfold _set_cluster_member_colors in Hret.
    rewrite (palette_of_labels Hdom) in Hret.
    match type of Hret with
    | bind ?m _ = _ => destruct m; [|discriminate]
    end.
    cbn [bind] in Hret.
    match type of Hret with
    | bind ?m _ = _ => destruct m; [|discriminate]
    end.
    cbn [bind] in Hret. now inversion Hret. }
  assert (Hlen : length palette = k) by (subst palette; apply palette_length).
  assert (Hu := np_unique_label_domain Hdom).
  unfold plot_cluster_membership. rewrite Hret. cbn [bind].
  destruct (existsb (Z.eqb (-1)) (np_unique (labels_ c))) eqn:Enoise; cbn [app] in Hu.
  - rewrite set_legend_enough
      by (rewrite Hu; simpl; rewrite length_map, length_seq; lia).
    cbn [bind]. eexists. split; [|split].
    + destruct scale_points; reflexivity.
    + rewrite Hu. apply map_snd_combine.
      simpl. rewrite length_map, length_seq. lia.
    + intros col x Hin. rewrite Hu in Hin. cbn [combine] in Hin.
      destruct Hin as [Heq|Hin]; [inversion Heq; reflexivity|].
      destruct (combine_palette_labels _ _ _ _ _ Hin) as [j [-> Hj]].
      unfold hard_color, getitem. cbn [Nat.add].
      rewrite (proj2 (Z.leb_le 0 (Z.of_nat j))) by lia.
      now rewrite Nat2Z.id, Hj.
  - rewrite set_legend_enough
      by (rewrite Hu; rewrite length_map, length_seq; lia).
    cbn [bind]. eexists. split; [|split].
    + destruct scale_points; reflexivity.
    + rewrite Hu. apply map_snd_combine.
      rewrite length_map, length_seq. lia.
    + intros col x Hin. rewrite Hu in Hin.
      destruct (combine_palette_labels _ _ _ _ _ Hin) as [j [-> Hj]].
      unfold hard_color, getitem. cbn [Nat.add].
      rewrite (proj2 (Z.leb_le 0 (Z.of_nat j))) by lia.
      now rewrite Nat2Z.id, Hj.
Qed.

End Legends.

Lemma plot_clustering_views_witness :
  exists fig,
    plot_clustering (D := sample_drawing) [[0; 0]; [1; 1]]%Q [0; -1; 1; 1] true = Ok fig /\
    warned fig = false /\
    legend_patches fig = Some (combine (sample_palette 3) [-1; 0; 1]) /\
    colorbar_ticks fig = None.
Proof.
  destruct (@plot_clustering_views sample_drawing sample_palette_length
              [[0; 0]; [1; 1]]%Q [0; -1; 1; 1] true)
    as [fig [Hret [Hwarn [_ [_ [Hlegend _]]]]]].
  exists fig. split; [exact Hret|].
  destruct Hlegend as [Hl [Hc _]]; [vm_compute; lia|].
  split; [exact Hwarn | split; [exact Hl | exact Hc]].
Defined.

Lemma membership_legend_witness :
  exists patches,
    plot_cluster_membership (D := sample_drawing) [[0; 0]; [1; 1]]%Q
                            short_clusterer true true false
    = Ok (mkMembershipPlot (Scaled 5 2)
                           [(0 # 2, 1 # 2, 1 # 3); (1 # 2, 1 # 2, 1 # 3)]%Q
                           (Some patches)) /\
    map snd patches = [0; 1].
Proof.
  destruct (@membership_legend sample_drawing sample_palette_length
              [[0; 0]; [1; 1]]%Q short_clusterer 2%nat true false
              [(0 # 2, 1 # 2, 1 # 3); (1 # 2, 1 # 2, 1 # 3)]%Q
              [(0 # 2, 1 # 2, 1 # 3); (1 # 2, 1 # 2, 1 # 3)]%Q)
    as [patches [Hret [Hlabels _]]].
  - split.
    + intros x Hx. simpl in Hx. decompose [or] Hx; subst; try contradiction; lia.
    + intros [|[|j]] Hj; simpl; [auto | auto | lia].
  - reflexivity.
  - exists patches. split; [exact Hret | exact Hlabels].
Defined.

(* ------------------------------------------------------------------ *)
(** * plot_clustering: the legend when there is noise *)

Lemma combine_labels_from (l : list color) :
  forall start : nat,
    combine l (map Z.of_nat (seq start (length l)))
    = map (fun j => (nth (j - start) l gray, Z.of_nat j)) (seq start (length l)).
Proof.
  induction l as [|c l IH]; intros start; [reflexivity|].
  cbn [length seq map combine]. rewrite Nat.sub_diag. cbn [nth]. f_equal.
  rewrite IH. apply map_ext_in. intros j Hj. apply in_seq in Hj.
  replace (j - start)%nat with (S (j - S start)) by lia. reflexivity.
Qed.

(** X19. In the legend of [plot_clustering] the colours go by position, not
    by label.  For the labels of [k] clusters with noise among them, and
    [k + 1 <= 12], the legend gives the noise label the first colour of the
    colour map and the label [j] the colour [j + 1]; without noise the label
    [j] has the colour [j]. *)
Theorem plot_clustering_legend_positions {D : Drawing}
    (palette_length : forall n, length (color_palette n) = n)
    (embedding : matrix) (cluster_labels : list Z) (scale_points : bool) (k : nat) :
  label_domain k cluster_labels ->
  (S k <= 12)%nat ->
  exists fig,
    plot_clustering embedding cluster_labels scale_points = Ok fig /\
    (In (-1) cluster_labels ->
     legend_patches fig
     = Some ((nth 0 (color_palette (S k)) gray, -1)
               :: map (fun j => (nth (S j) (color_palette (S k)) gray, Z.of_nat j))
                      (seq 0 k))) /\
    (~ In (-1) cluster_labels ->
     legend_patches fig
     = Some (map (fun j => (nth j (color_palette k) gray, Z.of_nat j)) (seq 0 k))).
Proof.
  intros Hdom Hk.
  assert (Hu := np_unique_label_domain Hdom).
  assert (Hnoise : existsb (Z.eqb (-1)) (np_unique cluster_labels) = true
                   <-> In (-1) cluster_labels).
  { rewrite existsb_exists. split.
    - intros [x [Hx Heq]]. apply Z.eqb_eq in Heq. subst x.
      exact (proj1 (np_unique_in _ _) Hx).
    - intros Hin. exists (-1). split; [now apply np_unique_in | reflexivity]. }
  unfold plot_clustering, _set_colors.
  destruct (existsb (Z.eqb (-1)) (np_unique cluster_labels)) eqn:E; cbn [app] in Hu.
  - assert (Hn : length (np_unique cluster_labels) = S k)
      by (rewrite Hu; simpl; now rewrite length_map, length_seq).
    rewrite Hn. rewrite (proj2 (Nat.leb_le (S k) 12) Hk).
    rewrite set_legend_enough by (rewrite palette_length; lia). cbn [bind].
    eexists. split; [reflexivity|]. cbn [legend_patches]. split.
    + intros _. f_equal. rewrite Hu.
      assert (Hlen := palette_length (S k)).
      destruct (color_palette (S k)) as [|c0 rest]; [discriminate|].
      cbn [combine nth]. f_equal.
      assert (Hrest : length rest = k) by (simpl in Hlen; lia).
      assert (Hc := combine_labels_from rest 0). rewrite Hrest in Hc. rewrite Hc.
      apply map_ext_in. intros j _. now rewrite Nat.sub_0_r.
    + intros Hno. exfalso. apply Hno. now apply Hnoise.
  - assert (Hn : length (np_unique cluster_labels) = k)
      by (rewrite Hu; now rewrite length_map, length_seq).
    rewrite Hn. rewrite (proj2 (Nat.leb_le k 12)) by lia.
    rewrite set_legend_enough by (rewrite palette_length; lia). cbn [bind].
    eexists. split; [reflexivity|]. cbn [legend_patches]. split.
    + intros Hin. apply Hnoise in Hin. discriminate.
    + intros _. f_equal. rewrite Hu.
      assert (Hc := combine_labels_from (color_palette k) 0).
      rewrite (palette_length k) in Hc. rewrite Hc.
      apply map_ext_in. intros j _. now rewrite Nat.sub_0_r.
Qed.

Lemma plot_clustering_legend_positions_witness :
  exists fig,
    plot_clustering (D := sample_drawing) [[0; 0]; [1; 1]]%Q [0; -1; 1; 1] true = Ok fig /\
    legend_patches fig
    = Some [(nth 0 (sample_palette 3) gray, -1);
            (nth 1 (sample_palette 3) gray, 0);
            (nth 2 (sample_palette 3) gray, 1)].
Proof.
  destruct (@plot_clustering_legend_positions sample_drawing sample_palette_length
              [[0; 0]; [1; 1]]%Q [0; -1; 1; 1] true 2%nat)
    as [fig [Hret [Hnoise _]]].
  - split.
    + intros x Hx. simpl in Hx. decompose [or] Hx; subst; try contradiction; lia.
    + intros [|[|j]] Hj; simpl; [auto | auto | lia].
  - lia.
  - exists fig. split; [exact Hret|]. apply Hnoise. simpl. auto.
Defined.

(* ------------------------------------------------------------------ *)
(** * plot_embedding: the argument checks *)

(** X20. [plot_embedding] raises the argument error exactly when a colour
    variable is given that is not a column, or a colour range is given that
    does not have two bounds; the range is checked even when no colour
    variable is given.  Otherwise it draws: without a colour variable the
    points have no colour values, no colour bar, and a range that was given
    is not used; with a colour variable the points are coloured by that
    column, the colour bar carries its name, and the range is the two
    bounds when a range was given. *)
Theorem plot_embedding_checks (embedding : matrix) (data : DataFrame)
    (scale_points : bool) (cmap_var : option string) (cmap_minmax : list Q) :
  let bad_variable := exists name,
      cmap_var = Some name /\ name <> "" /\ ~ In name (columns data) in
  let bad_range := cmap_minmax <> [] /\ length cmap_minmax <> 2%nat in
  (bad_variable \/ bad_range ->
   plot_embedding embedding data scale_points cmap_var cmap_minmax = Raise ValueError) /\
  (~ bad_variable -> ~ bad_range ->
   exists fig,
     plot_embedding embedding data scale_points cmap_var cmap_minmax = Ok fig /\
     (truthy cmap_var = false ->
      color_values fig = None /\ color_range fig = None /\ colorbar_label fig = None) /\
     (forall name,
         cmap_var = Some name -> name <> "" ->
         color_values fig = Some (column name data) /\
         colorbar_label fig = Some name /\
         color_range fig
         = match cmap_minmax with
           | [] => None
           | _ => Some (nth 0 cmap_minmax 0%Q, nth 1 cmap_minmax 0%Q)
           end)).
Proof.
  cbv zeta.
  assert (Hvar : not_in_columns cmap_var data && truthy cmap_var = true <->
                 exists name, cmap_var = Some name /\ name <> "" /\ ~ In name (columns data)).
  { destruct cmap_var as [name|]; simpl.
    - rewrite andb_true_iff, !negb_true_iff, in_columns_false, String.eqb_neq.
      split.
      + intros [Hc Hn]. exists name. auto.
      + intros [n [Heq [Hn Hc]]]. inversion Heq; subst. auto.
    - split; [discriminate | intros [n [Heq _]]; discriminate]. }
  assert (Hrange : negb (length cmap_minmax =? 2)%nat && negb (length cmap_minmax =? 0)%nat
                   = true <-> cmap_minmax <> [] /\ length cmap_minmax <> 2%nat).
  { rewrite andb_true_iff, !negb_true_iff, !Nat.eqb_neq.
    destruct cmap_minmax; simpl; split; intros [H1 H2]; split; congruence || lia. }
  unfold plot_embedding. split.
  - intros [Hbad|Hbad].
    + apply Hvar in Hbad. now rewrite Hbad.
    + apply Hrange in Hbad. rewrite Hbad.
      now destruct (not_in_columns cmap_var data && truthy cmap_var).
  - intros Hv Hr.
    destruct (not_in_columns cmap_var data && truthy cmap_var) eqn:Ev;
      [elim Hv; now apply Hvar|].
    destruct (negb (length cmap_minmax =? 2)%nat && negb (length cmap_minmax =? 0)%nat)
      eqn:Er; [elim Hr; now apply Hrange|].
    destruct (truthy cmap_var) eqn:Et.
    + destruct cmap_var as [name|]; [|discriminate].
      destruct cmap_minmax as [|lo rest]; cbn [length Nat.eqb negb];
        (eexists; split; [reflexivity|];
         cbn [color_values color_range colorbar_label];
         split; [discriminate|];
         intros n Hn _; inversion Hn; subst; repeat split; reflexivity).
    + eexists. split; [reflexivity|].
      cbn [color_values color_range colorbar_label]. split; [auto|].
      intros n Hn Hne. subst cmap_var. simpl in Et.
      apply negb_false_iff, String.eqb_eq in Et. contradiction.
Qed.

Lemma plot_embedding_checks_witness :
  plot_embedding [[0; 0]]%Q ab_table true None [1]%Q = Raise ValueError /\
  plot_embedding [[0; 0]]%Q ab_table true (Some "C") [] = Raise ValueError.
Proof.
  split.
  - apply plot_embedding_checks. right. split; [discriminate | simpl; lia].
  - apply plot_embedding_checks. left. exists "C".
    split; [reflexivity | split; [discriminate | apply in_columns_false; reflexivity]].
Defined.

(* ------------------------------------------------------------------ *)
(** * export_vtk_data: exporting again, and importing what was exported *)

Lemma set_array_twice (name : string) (a b : array) (l : list (string * array)) :
  set_array name b (set_array name a l) = set_array name b l.
Proof.
  induction l as [|[n c] l IH]; simpl.
  - now rewrite String.eqb_refl.
  - destruct (String.eqb name n) eqn:E; simpl; rewrite E; [reflexivity | now rewrite IH].
Qed.

Lemma set_array_fresh (name : string) (a : array) (l : list (string * array)) :
  ~ In name (map fst l) -> set_array name a l = l ++ [(name, a)].
Proof.
  induction l as [|[n b] l IH]; simpl; intros Hn; [reflexivity|].
  destruct (String.eqb name n) eqn:E.
  - apply String.eqb_eq in E. subst. exfalso. auto.
  - f_equal. apply IH. auto.
Qed.

(** X21. Exporting labels twice, with as many labels the second time as the
    first (both per point, or both per cell): the second export replaces
    the array clusters that the first one attached, so the mesh saved by the
    second call is the mesh that a single export of the second labels
    saves, and the mesh gains no further array. *)
Theorem export_vtk_data_again (mesh : Mesh) (path path' : string) (labels labels' : array) :
  shape0 labels = n_points mesh \/ shape0 labels = n_cells mesh ->
  shape0 labels' = shape0 labels ->
  export_vtk_data (fst (export_vtk_data mesh path (Some labels))) path' (Some labels')
  = export_vtk_data mesh path' (Some labels') /\
  array_names (fst (export_vtk_data mesh path' (Some labels')))
  = array_names (fst (export_vtk_data mesh path (Some labels))).
Proof.
  intros H Hsame.
  assert (Hfits : (shape0 labels =? n_points mesh)%nat || (shape0 labels =? n_cells mesh)%nat
                  = true).
  { apply orb_true_iff. now rewrite !Nat.eqb_eq. }
  unfold export_vtk_data, setitem_mesh.
  rewrite Hsame, Hfits. cbn [fst n_points n_cells arrays].
  rewrite Hfits, set_array_twice. split; [reflexivity|].
  unfold array_names. cbn [arrays].
  destruct (in_dec string_dec "clusters" (map fst (arrays mesh))) as [Hin|Hout].
  - now rewrite !names_set_array_old.
  - now rewrite !names_set_array_new.
Qed.

Lemma export_vtk_data_again_witness :
  export_vtk_data (fst (export_vtk_data small_mesh "a.vtk" (Some (Arr1 [0; 1]%Q))))
                  "b.vtk" (Some (Arr1 [1; 1]%Q))
  = export_vtk_data small_mesh "b.vtk" (Some (Arr1 [1; 1]%Q)).
Proof.
  apply export_vtk_data_again; [left; reflexivity | reflexivity].
Defined.

Section ExportThenImport.
Context {F : MeshFilters}.
Variables (N cells : nat) (arrs : list (string * array)) (labels : list Q).
Hypothesis samples : (1 <= N)%nat.
Hypothesis names_distinct : NoDup (map fst arrs).
Hypothesis arrays_sampled : forall e, In e arrs -> sampled N (snd e).
Hypothesis one_label_per_point : length labels = N.
Hypothesis no_ghost : ~ In "vtkGhostType" (map fst arrs).
Hypothesis no_clusters : ~ In "clusters" (map fst arrs).

Lemma scalar_columns_app (l l' : list (string * array)) :
  scalar_columns (l ++ l') = scalar_columns l ++ scalar_columns l'.
Proof. unfold scalar_columns. apply flat_map_app. Qed.

Lemma vector_columns_app (l l' : list (string * array)) :
  vector_columns (l ++ l') = vector_columns l ++ vector_columns l'.
Proof. unfold vector_columns. apply flat_map_app. Qed.

(** X22. Importing what was exported.  Take a mesh of [N >= 1] points with
    scalars and vectors of distinct names, none called vtkGhostType or
    clusters, and one label per point.  After [export_vtk_data] has attached
    the labels, [import_vtk_data] on the caller's mesh returns the table of
    the mesh with one more column, clusters, holding the labels; it stands
    after the scalars and before the vector components.  This also holds
    for a mesh that has vectors only. *)
Theorem export_then_import (path : string) :
  NoDup (map fst (scalar_columns arrs ++ [("clusters", labels)] ++ vector_columns arrs)) ->
  let exported :=
    fst (export_vtk_data (mkMesh N cells arrs) path (Some (Arr1 labels))) in
  exported = mkMesh N cells (arrs ++ [("clusters", Arr1 labels)]) /\
  import_vtk_data exported
  = Ok (mkDF (map Z.of_nat (seq 0 N))
             (scalar_columns arrs ++ [("clusters", labels)] ++ vector_columns arrs),
        exported).
Proof.
  intros Hnd. cbv zeta.
  set (arrs' := arrs ++ [("clusters", Arr1 labels)]).
  assert (Hexp : fst (export_vtk_data (mkMesh N cells arrs) path (Some (Arr1 labels)))
                 = mkMesh N cells arrs').
  { unfold export_vtk_data, setitem_mesh. cbn [shape0 n_points n_cells arrays].
    rewrite one_label_per_point, Nat.eqb_refl. cbn [orb fst].
    now rewrite set_array_fresh. }
  rewrite Hexp. split; [reflexivity|].
  assert (Hnames : NoDup (map fst arrs')).
  { unfold arrs'. rewrite map_app. cbn [map fst].
    apply NoDup_app; [assumption | repeat constructor; intros [] |].
    intros x Hx [<-|[]]. contradiction. }
  assert (Hsampled : forall e, In e arrs' -> sampled N (snd e)).
  { intros e He. apply in_app_or in He. destruct He as [He|[<-|[]]];
      [now apply arrays_sampled | exact one_label_per_point]. }
  assert (Hscalar : scalar_columns arrs' = scalar_columns arrs ++ [("clusters", labels)]).
  { unfold arrs'. now rewrite scalar_columns_app. }
  assert (Hvector : vector_columns arrs' = vector_columns arrs).
  { unfold arrs'. rewrite vector_columns_app. apply app_nil_r. }
  unfold import_vtk_data.
  assert (Hno : existsb (String.eqb "vtkGhostType") (array_names (mkMesh N cells arrs'))
                = false).
  { apply not_true_iff_false. intros Hex. apply existsb_exists in Hex.
    destruct Hex as [n [Hn Heq]]. apply String.eqb_eq in Heq. subst n.
    unfold array_names, arrs' in Hn. cbn [arrays] in Hn. rewrite map_app in Hn.
    apply in_app_or in Hn. destruct Hn as [Hn|[Hn|[]]]; [contradiction | discriminate]. }
  rewrite Hno. cbv zeta.
  rewrite (@vector_names_of_mesh N cells arrs' samples Hnames Hsampled).
  rewrite (@var_names_of_mesh N cells arrs' Hnames).
  rewrite (@get_arrays_entries N cells arrs' Hnames)
    by (intros e He; now apply filter_In in He).
  cbn [bind].
  rewrite (@frame_of_scalars N).
  - cbn [bind]. rewrite scalar_columns_filter.
    rewrite (@add_vectors N cells arrs' Hnames Hsampled).
    + cbn [bind]. rewrite vector_columns_filter, Hscalar, Hvector.
      now rewrite <- app_assoc.
    + intros e He. now apply filter_In in He.
    + rewrite vector_columns_filter, Hscalar, Hvector.
      rewrite <- map_app, <- app_assoc. exact Hnd.
  - rewrite scalar_columns_filter, Hscalar. now destruct (scalar_columns arrs).
  - intros e He. apply filter_In in He. destruct He as [He Hv].
    split; [now apply negb_true_iff | now apply Hsampled].
Qed.

End ExportThenImport.

Lemma export_then_import_witness :
  import_vtk_data (F := keep_all)
                  (fst (export_vtk_data small_mesh "out.vtk" (Some (Arr1 [0; 1]%Q))))
  = Ok (mkDF [0; 1]
             [("A", [9; 8]%Q); ("clusters", [0; 1]%Q);
              ("V:0", [1; 4]%Q); ("V:1", [2; 5]%Q); ("V:2", [3; 6]%Q)],
        mkMesh 2 1 (arrays small_mesh ++ [("clusters", Arr1 [0; 1]%Q)])).
Proof.
  destruct (@export_then_import keep_all 2 1 (arrays small_mesh) [0; 1]%Q) with
    (path := "out.vtk") as [Hmesh Himport].
  - lia.
  - repeat constructor; simpl; intuition discriminate.
  - intros e He. simpl in He. decompose [or] He; subst; simpl; auto; contradiction.
  - reflexivity.
  - simpl. intuition discriminate.
  - simpl. intuition discriminate.
  - repeat constructor; simpl; intuition discriminate.
  - exact Himport.
Defined.
